(** * Loss scale managers of [mindspore/train/loss_scale_manager.py]

    A shallow embedding of [FixedLossScaleManager] and
    [DynamicLossScaleManager], and the properties of the loss scale state
    machine proved about it.

    Numbers.  The counters ([cur_iter], [last_overflow_iter], [bad_step],
    [bad_step_max], [scale_window]) are Python integers, [Z].  The loss scale
    and the scale factor are Python numbers: an [int] of any size or a
    [float], an IEEE 754 binary64 value ([spec_float] of the Standard
    Library, with 53 bits of precision and infinities at exponent 1024).
    Multiplication and true division follow Python: [int * int] is exact,
    an [int] meeting a [float] is first converted, which raises
    [OverflowError] when it is too large, float results are rounded to
    nearest, ties to even, overflow to infinity, and combine NaN as IEEE
    does.  Comparisons are exact on the values, and false on NaN.

    Effects.  A method mutates [self] and may raise after having mutated it.
    Methods are therefore functions [self -> self * result A]: the object
    left behind is returned together with either the value or the exception. *)

From Stdlib Require Import SpecFloat.
From Stdlib Require Import ZArith Bool List String Lia.
Import ListNotations.

Local Open Scope Z_scope.

(** ** Exceptions and results *)

(** The exceptions the module raises.  A [ValueError] records the argument
    the message is about; the [RuntimeError] of [update_loss_scale] carries
    [self.bad_step], the second item of its argument tuple.
    [ZeroDivisionError] is what [%] and [/] raise on a zero divisor,
    [OverflowError] what the conversion of a large [int] to [float]
    raises. *)
Inductive exn : Type :=
| ValueError (arg_name : string)
| RuntimeError (bad_step : Z)
| ZeroDivisionError
| OverflowError.

Inductive result (A : Type) : Type :=
| Ok (a : A)
| Raise (e : exn).

Arguments Ok {A} a.
Arguments Raise {A} e.

Definition returns_normally {A : Type} (r : result A) : bool :=
  match r with
  | Ok _ => true
  | Raise _ => false
  end.

(** An expression whose evaluation may raise, followed by the rest. *)
Definition and_then {A B : Type} (r : result A) (k : A -> result B)
  : result B :=
  match r with
  | Ok a => k a
  | Raise e => Raise e
  end.

(** ** Methods as state transformers that may raise *)

Definition method (S A : Type) : Type := S -> S * result A.

Definition ret {S A : Type} (a : A) : method S A :=
  fun self => (self, Ok a).

Definition raise {S A : Type} (e : exn) : method S A :=
  fun self => (self, Raise e).

(** Sequencing: an exception ends the method, the mutations made so far
    stay. *)
Definition bind {S A B : Type} (m : method S A) (k : A -> method S B)
  : method S B :=
  fun self =>
    match m self with
    | (self', Ok a) => k a self'
    | (self', Raise e) => (self', Raise e)
    end.

(** The object the method is running on. *)
Definition this {S : Type} : method S S :=
  fun self => (self, Ok self).

Definition assign {S : Type} (update : S -> S) : method S unit :=
  fun self => (update self, Ok tt).

(** The value of an expression that reads no field, or its exception. *)
Definition eval {S A : Type} (r : result A) : method S A :=
  fun self => (self, r).

Definition pass {S : Type} : method S unit := ret tt.

Declare Scope method_scope.
Delimit Scope method_scope with method.

Notation "x <- m ;; k" := (bind m (fun x => k))
  (at level 61, m at next level, right associativity) : method_scope.
Notation "m ;; k" := (bind m (fun _ => k))
  (at level 61, right associativity) : method_scope.

(** ** Binary64 *)

Module Binary64.

Definition prec : Z := 53.
Definition emax : Z := 1024.

Definition mul : spec_float -> spec_float -> spec_float := SFmul prec emax.
Definition div : spec_float -> spec_float -> spec_float := SFdiv prec emax.

(** The float nearest to an integer, infinite when the integer is beyond
    the largest float. *)
Definition of_Z (z : Z) : spec_float := binary_normalize prec emax z 0 false.

(** The float nearest to the quotient of two non-zero integers: the
    division of [SFdiv], on mantissas of any size. *)
Definition quotient (a b : Z) : spec_float :=
  let '(q, e, l) := SFdiv_core_binary prec emax (Z.abs a) 0 (Z.abs b) 0 in
  binary_round_aux prec emax (xorb (a <? 0) (b <? 0)) q e l.

Definition is_infinity (x : spec_float) : bool :=
  match x with
  | S754_infinity _ => true
  | _ => false
  end.

Definition is_zero (x : spec_float) : bool :=
  match x with
  | S754_zero _ => true
  | _ => false
  end.

(** The two truncations of [binary_round_aux], on mantissa and exponent:
    the number of bits [shr_fexp] drops, what it leaves, and what the
    second one leaves after the rounding between them. *)
Definition dropped_bits (m e : Z) : Z := fexp prec emax (Zdigits2 m + e) - e.

Definition truncated (m e : Z) : Z * Z :=
  if 0 <? dropped_bits m e
  then (m / 2 ^ dropped_bits m e, e + dropped_bits m e)
  else (m, e).

Definition rounded (m e : Z) (l : location) : Z * Z :=
  let mrs := fst (shr_fexp prec emax m e l) in
  truncated (round_nearest_even (shr_m mrs) (loc_of_shr_record mrs))
            (snd (truncated m e)).

(** [1 <= m * 2 ^ e], on integers. *)
Definition at_least_one (m e : Z) : Prop :=
  (0 <= e /\ 1 <= m) \/ (e < 0 /\ 2 ^ (- e) <= m).

(** A float that is at least 1. *)
Definition float_at_least_one (x : spec_float) : Prop :=
  x = S754_infinity false \/
  exists p e, x = S754_finite false p e /\ at_least_one (Zpos p) e.

(** 1.0, 0.5, 128.0 and 1024.0 *)
Definition one : spec_float := S754_finite false 4503599627370496 (-52).
Definition half : spec_float := S754_finite false 4503599627370496 (-53).
Definition f128 : spec_float := S754_finite false 4503599627370496 (-45).
Definition f1024 : spec_float := S754_finite false 4503599627370496 (-42).

End Binary64.

(** ** Python numbers *)

Module Py.

Inductive num : Type :=
| Int (z : Z)
| Float (x : spec_float).

(** [float(z)]: "int too large to convert to float" when the nearest float
    is infinite. *)
Definition float_of_int (z : Z) : result spec_float :=
  if Binary64.is_infinity (Binary64.of_Z z) then Raise OverflowError
  else Ok (Binary64.of_Z z).

(** The operand of a float operation. *)
Definition as_float (a : num) : result spec_float :=
  match a with
  | Int z => float_of_int z
  | Float x => Ok x
  end.

(** [a * b] *)
Definition mul (a b : num) : result num :=
  match a, b with
  | Int x, Int y => Ok (Int (x * y))
  | _, _ =>
      and_then (as_float a) (fun x =>
      and_then (as_float b) (fun y =>
      Ok (Float (Binary64.mul x y))))
  end.

(** [a / b] on two integers: the float nearest to the quotient, of the sign
    of the quotient when the dividend is zero; "integer division result too
    large for a float" when it is infinite. *)
Definition int_truediv (a b : Z) : result num :=
  if b =? 0 then Raise ZeroDivisionError
  else if a =? 0 then Ok (Float (S754_zero (b <? 0)))
  else if Binary64.is_infinity (Binary64.quotient a b)
       then Raise OverflowError
       else Ok (Float (Binary64.quotient a b)).

(** [a / b] *)
Definition truediv (a b : num) : result num :=
  match a, b with
  | Int x, Int y => int_truediv x y
  | _, _ =>
      and_then (as_float a) (fun x =>
      and_then (as_float b) (fun y =>
      if Binary64.is_zero y then Raise ZeroDivisionError
      else Ok (Float (Binary64.div x y))))
  end.

(** The value of a number: not a number, an infinity, or [m * 2 ^ e]. *)
Inductive extended : Type :=
| Nan
| Inf (negative : bool)
| Dyadic (m e : Z).

Definition value (a : num) : extended :=
  match a with
  | Int z => Dyadic z 0
  | Float (S754_zero _) => Dyadic 0 0
  | Float (S754_infinity s) => Inf s
  | Float S754_nan => Nan
  | Float (S754_finite s m e) => Dyadic (if s then Zneg m else Zpos m) e
  end.

(** [m1 * 2 ^ e1] against [m2 * 2 ^ e2], both brought to the smaller
    exponent. *)
Definition dyadic_compare (m1 e1 m2 e2 : Z) : comparison :=
  (m1 * 2 ^ (e1 - Z.min e1 e2) ?= m2 * 2 ^ (e2 - Z.min e1 e2)).

(** The order of two numbers, [None] when one of them is NaN.  Python
    compares an [int] with a [float] on their exact values. *)
Definition compare (a b : num) : option comparison :=
  match value a, value b with
  | Nan, _ | _, Nan => None
  | Inf s1, Inf s2 =>
      Some (match s1, s2 with
            | true, false => Lt
            | false, true => Gt
            | _, _ => Eq
            end)
  | Inf s, Dyadic _ _ => Some (if s then Lt else Gt)
  | Dyadic _ _, Inf s => Some (if s then Gt else Lt)
  | Dyadic m1 e1, Dyadic m2 e2 => Some (dyadic_compare m1 e1 m2 e2)
  end.

(** [a < b], [a <= b] and [a > b] *)
Definition lt (a b : num) : bool :=
  match compare a b with
  | Some Lt => true
  | _ => false
  end.

Definition le (a b : num) : bool :=
  match compare a b with
  | Some Lt | Some Eq => true
  | _ => false
  end.

Definition gt (a b : num) : bool :=
  match compare a b with
  | Some Gt => true
  | _ => false
  end.

(** [max(a, b)]: the first of the largest items, that is [b] only when
    [b > a]. *)
Definition max (a b : num) : num := if gt b a then b else a.

End Py.

(** ** Collaborators outside the file *)

Module Validator.

(** Modelled from the spec: [validator.check_positive_int] of
    [mindspore/_checkparam.py], which is not among the sources.  The spec
    says: "scaleWindow < 1 -> fails with InvalidConfigError".  An accepted
    value is returned. *)
Definition check_positive_int (arg_value : Z) (arg_name prim_name : string)
  : result Z :=
  if arg_value <? 1 then Raise (ValueError arg_name) else Ok arg_value.

End Validator.

Module nn.

(** Modelled from the spec: the update cells of [mindspore.nn], which are not
    among the sources.  The spec treats them as opaque descriptors "carrying
    the fixed scale", respectively "carrying (scale, scaleFactor,
    scaleWindow)": a constructor applied to the arguments of the call. *)
Inductive Cell : Type :=
| FixedLossScaleUpdateCell (loss_scale_value : Py.num)
| DynamicLossScaleUpdateCell (loss_scale_value : Py.num)
                             (scale_factor : Py.num) (scale_window : Z).

End nn.

(** ** [class FixedLossScaleManager] *)

Module FixedLossScaleManager.

Record t : Type := mk {
  _loss_scale : Py.num;
  _drop_overflow_update : bool
}.

Definition __init__ (loss_scale : Py.num) (drop_overflow_update : bool)
  : result t :=
  if Py.lt loss_scale (Py.Int 1) then Raise (ValueError "loss_scale")
  else Ok {| _loss_scale := loss_scale;
             _drop_overflow_update := drop_overflow_update |}.

Definition get_loss_scale (self : t) : Py.num := _loss_scale self.

Definition get_drop_overflow_update (self : t) : bool :=
  _drop_overflow_update self.

(** The body is the docstring alone. *)
Definition update_loss_scale (overflow : bool) : method t unit := pass.

Definition get_update_cell (self : t) : option nn.Cell :=
  if negb (_drop_overflow_update self) then None
  else Some (nn.FixedLossScaleUpdateCell (_loss_scale self)).

(** The object after a sequence of [update_loss_scale] calls, the caller
    going on after a call whatever its outcome, and the outcomes. *)
Fixpoint run (overflows : list bool) (self : t) : t :=
  match overflows with
  | [] => self
  | overflow :: rest => run rest (fst (update_loss_scale overflow self))
  end.

Fixpoint outcomes (overflows : list bool) (self : t) : list (result unit) :=
  match overflows with
  | [] => []
  | overflow :: rest =>
      snd (update_loss_scale overflow self)
        :: outcomes rest (fst (update_loss_scale overflow self))
  end.

(** [FixedLossScaleManager()], with the default arguments, and
    [FixedLossScaleManager(128.0, False)]. *)
Definition scenario_c : t :=
  {| _loss_scale := Py.Float Binary64.f128; _drop_overflow_update := true |}.

Definition scenario_c_keep : t :=
  {| _loss_scale := Py.Float Binary64.f128; _drop_overflow_update := false |}.

End FixedLossScaleManager.

(** ** [class DynamicLossScaleManager] *)

Module DynamicLossScaleManager.

Record t : Type := mk {
  loss_scale : Py.num;
  scale_window : Z;
  scale_factor : Py.num;
  increase_ratio : Py.num;
  decrease_ratio : Py.num;
  cur_iter : Z;
  last_overflow_iter : Z;
  bad_step_max : Z;
  bad_step : Z
}.

Definition set_loss_scale (v : Py.num) (self : t) : t :=
  mk v (scale_window self) (scale_factor self) (increase_ratio self)
     (decrease_ratio self) (cur_iter self) (last_overflow_iter self)
     (bad_step_max self) (bad_step self).

Definition set_cur_iter (v : Z) (self : t) : t :=
  mk (loss_scale self) (scale_window self) (scale_factor self)
     (increase_ratio self) (decrease_ratio self) v (last_overflow_iter self)
     (bad_step_max self) (bad_step self).

Definition set_last_overflow_iter (v : Z) (self : t) : t :=
  mk (loss_scale self) (scale_window self) (scale_factor self)
     (increase_ratio self) (decrease_ratio self) (cur_iter self) v
     (bad_step_max self) (bad_step self).

Definition set_bad_step (v : Z) (self : t) : t :=
  mk (loss_scale self) (scale_window self) (scale_factor self)
     (increase_ratio self) (decrease_ratio self) (cur_iter self)
     (last_overflow_iter self) (bad_step_max self) v.

Definition __init__ (init_loss_scale scale_factor : Py.num) (scale_window : Z)
  : result t :=
  if Py.lt init_loss_scale (Py.Float Binary64.one)
  then Raise (ValueError "init_loss_scale")
  else
    match Validator.check_positive_int scale_window "scale_window"
                                       "DynamicLossScaleManager" with
    | Raise e => Raise e
    | Ok _ =>
        if Py.le scale_factor (Py.Int 0)
        then Raise (ValueError "scale_factor")
        else
          match Py.truediv (Py.Int 1) scale_factor with
          | Raise e => Raise e
          | Ok ratio =>
              Ok {| loss_scale := init_loss_scale;
                    scale_window := scale_window;
                    scale_factor := scale_factor;
                    increase_ratio := scale_factor;
                    decrease_ratio := ratio;
                    cur_iter := 1;
                    last_overflow_iter := 0;
                    bad_step_max := 1000;
                    bad_step := 0 |}
          end
    end.

Definition get_loss_scale (self : t) : Py.num := loss_scale self.

(** Python's [a % b] on integers: the remainder has the sign of [b], as
    [Z.modulo] has; a zero [b] raises. *)
Definition py_mod (a b : Z) : method t Z :=
  if b =? 0 then raise ZeroDivisionError else ret (a mod b).

Local Open Scope method_scope.

Definition update_loss_scale (overflow : bool) : method t unit :=
  (if overflow then
     self <- this ;;
     product <- eval (Py.mul (loss_scale self) (decrease_ratio self)) ;;
     assign (set_loss_scale (Py.max product (Py.Int 1))) ;;
     self <- this ;;
     assign (set_last_overflow_iter (cur_iter self)) ;;
     self <- this ;;
     assign (set_bad_step (bad_step self + 1))
   else
     self <- this ;;
     r <- py_mod (cur_iter self - last_overflow_iter self)
                 (scale_window self) ;;
     (if r =? 0
      then
        product <- eval (Py.mul (loss_scale self) (increase_ratio self)) ;;
        assign (set_loss_scale product)
      else pass) ;;
     assign (set_bad_step 0)) ;;
  self <- this ;;
  (if bad_step self >? bad_step_max self
   then raise (RuntimeError (bad_step self))
   else pass) ;;
  self <- this ;;
  assign (set_cur_iter (cur_iter self + 1)).

Local Close Scope method_scope.

Definition get_drop_overflow_update (self : t) : bool := true.

Definition get_update_cell (self : t) : nn.Cell :=
  nn.DynamicLossScaleUpdateCell (loss_scale self) (scale_factor self)
                                (scale_window self).

(** The object after a sequence of [update_loss_scale] calls, the caller
    going on after a call whatever its outcome, and the outcomes. *)
Fixpoint run (overflows : list bool) (self : t) : t :=
  match overflows with
  | [] => self
  | overflow :: rest => run rest (fst (update_loss_scale overflow self))
  end.

Fixpoint outcomes (overflows : list bool) (self : t) : list (result unit) :=
  match overflows with
  | [] => []
  | overflow :: rest =>
      snd (update_loss_scale overflow self)
        :: outcomes rest (fst (update_loss_scale overflow self))
  end.

(** States a training loop can see: a constructed object, then any number
    of [update_loss_scale] calls.  A call that raised may still have
    mutated the object, so it counts as a step. *)
Inductive reachable : t -> Prop :=
| reachable_init init_loss_scale scale_factor scale_window self :
    __init__ init_loss_scale scale_factor scale_window = Ok self ->
    reachable self
| reachable_call self overflow :
    reachable self ->
    reachable (fst (update_loss_scale overflow self)).

(** The same, through calls that all returned normally. *)
Inductive reachable_normally : t -> Prop :=
| normally_init init_loss_scale scale_factor scale_window self :
    __init__ init_loss_scale scale_factor scale_window = Ok self ->
    reachable_normally self
| normally_call self overflow self' :
    reachable_normally self ->
    update_loss_scale overflow self = (self', Ok tt) ->
    reachable_normally self'.

(** ** Auxiliary definitions for the properties *)

(** The object at the fatal check of an overflow call whose product is
    [product]. *)
Definition after_overflow (product : Py.num) (self : t) : t :=
  {| loss_scale := Py.max product (Py.Int 1);
     scale_window := scale_window self;
     scale_factor := scale_factor self;
     increase_ratio := increase_ratio self;
     decrease_ratio := decrease_ratio self;
     cur_iter := cur_iter self;
     last_overflow_iter := cur_iter self;
     bad_step_max := bad_step_max self;
     bad_step := bad_step self + 1 |}.

(** The object at the fatal check of a call without overflow that leaves
    the scale at [scale]. *)
Definition after_normal (scale : Py.num) (self : t) : t :=
  {| loss_scale := scale;
     scale_window := scale_window self;
     scale_factor := scale_factor self;
     increase_ratio := increase_ratio self;
     decrease_ratio := decrease_ratio self;
     cur_iter := cur_iter self;
     last_overflow_iter := last_overflow_iter self;
     bad_step_max := bad_step_max self;
     bad_step := 0 |}.

(** Whether the window is due at this call. *)
Definition due (self : t) : bool :=
  (cur_iter self - last_overflow_iter self) mod scale_window self =? 0.

(** A scale as the overflow branch assigns it: a float, or the [1] of
    [max]. *)
Definition assigned_by_max (scale : Py.num) : Prop :=
  match scale with
  | Py.Int z => z = 1
  | Py.Float _ => True
  end.

(** The fields no method assigns after construction, the sign of the
    overflow counter, and the shape of the scale during a streak. *)
Record configured (self : t) : Prop := {
  window_positive : 1 <= scale_window self;
  increase_is_factor : increase_ratio self = scale_factor self;
  decrease_is_quotient :
    Py.truediv (Py.Int 1) (scale_factor self) = Ok (decrease_ratio self);
  ceiling_is_1000 : bad_step_max self = 1000;
  bad_step_nonneg : 0 <= bad_step self;
  streak_scale_shape : 0 < bad_step self -> assigned_by_max (loss_scale self)
}.

(** The five fields set at construction and read by the calls. *)
Definition same_configuration (self self' : t) : Prop :=
  scale_window self' = scale_window self /\
  scale_factor self' = scale_factor self /\
  increase_ratio self' = increase_ratio self /\
  decrease_ratio self' = decrease_ratio self /\
  bad_step_max self' = bad_step_max self.

(** [DynamicLossScaleManager(1024, 2, 3)], the documented scenario. *)
Definition scenario_a : t :=
  {| loss_scale := Py.Int 1024; scale_window := 3;
     scale_factor := Py.Int 2; increase_ratio := Py.Int 2;
     decrease_ratio := Py.Float Binary64.half;
     cur_iter := 1; last_overflow_iter := 0;
     bad_step_max := 1000; bad_step := 0 |}.

(** [DynamicLossScaleManager(2, 2, 1)], and the same object after 1000
    overflow calls in a row. *)
Definition scenario_b : t :=
  {| loss_scale := Py.Int 2; scale_window := 1;
     scale_factor := Py.Int 2; increase_ratio := Py.Int 2;
     decrease_ratio := Py.Float Binary64.half;
     cur_iter := 1; last_overflow_iter := 0;
     bad_step_max := 1000; bad_step := 0 |}.

Definition scenario_b_at_ceiling : t := run (repeat true 1000) scenario_b.

(** [DynamicLossScaleManager(1, 0.5, 1)]: a scale factor below one. *)
Definition shrinking : t :=
  {| loss_scale := Py.Int 1; scale_window := 1;
     scale_factor := Py.Float Binary64.half;
     increase_ratio := Py.Float Binary64.half;
     decrease_ratio := Py.Float (S754_finite false 4503599627370496 (-51));
     cur_iter := 1; last_overflow_iter := 0;
     bad_step_max := 1000; bad_step := 0 |}.

(** [DynamicLossScaleManager(2**1024, 2, 1)]: an integer scale beyond the
    largest float. *)
Definition huge : t :=
  {| loss_scale := Py.Int (2 ^ 1024); scale_window := 1;
     scale_factor := Py.Int 2; increase_ratio := Py.Int 2;
     decrease_ratio := Py.Float Binary64.half;
     cur_iter := 1; last_overflow_iter := 0;
     bad_step_max := 1000; bad_step := 0 |}.

(** [DynamicLossScaleManager(1.0, 2**1024, 1)]: a float scale with an
    integer factor beyond the largest float; [1 / 2**1024] is the float
    [2 ^ -1024]. *)
Definition huge_factor : t :=
  {| loss_scale := Py.Float Binary64.one; scale_window := 1;
     scale_factor := Py.Int (2 ^ 1024); increase_ratio := Py.Int (2 ^ 1024);
     decrease_ratio := Py.Float (S754_finite false 1125899906842624 (-1074));
     cur_iter := 1; last_overflow_iter := 0;
     bad_step_max := 1000; bad_step := 0 |}.

(** [DynamicLossScaleManager(float('inf'), 2**1024, 1)] *)
Definition infinite : t :=
  {| loss_scale := Py.Float (S754_infinity false); scale_window := 1;
     scale_factor := Py.Int (2 ^ 1024); increase_ratio := Py.Int (2 ^ 1024);
     decrease_ratio := Py.Float (S754_finite false 1125899906842624 (-1074));
     cur_iter := 1; last_overflow_iter := 0;
     bad_step_max := 1000; bad_step := 0 |}.

(** [DynamicLossScaleManager(2**24, 2, 1)], the default scale and factor,
    after 1000 calls without overflow. *)
Definition grown : t :=
  run (repeat false 1000)
      {| loss_scale := Py.Int (2 ^ 24); scale_window := 1;
         scale_factor := Py.Int 2; increase_ratio := Py.Int 2;
         decrease_ratio := Py.Float Binary64.half;
         cur_iter := 1; last_overflow_iter := 0;
         bad_step_max := 1000; bad_step := 0 |}.

End DynamicLossScaleManager.

(** * Properties *)

(** ** Rounding to binary64 *)

Section Rounding.

Import Binary64.

Lemma iter_pos_nat {A : Type} (f : A -> A) (p : positive) (x : A) :
  SpecFloat.iter_pos f p x = Nat.iter (Pos.to_nat p) f x.
Proof.
  revert x. induction p as [p IH | p IH |]; intros x;
    cbn [SpecFloat.iter_pos].
  - rewrite !IH, Pos2Nat.inj_xI.
    replace (S (2 * Pos.to_nat p))%nat
      with (Pos.to_nat p + (Pos.to_nat p + 1))%nat by lia.
    rewrite !Nat.iter_add. reflexivity.
  - rewrite !IH, Pos2Nat.inj_xO.
    replace (2 * Pos.to_nat p)%nat
      with (Pos.to_nat p + Pos.to_nat p)%nat by lia.
    rewrite Nat.iter_add. reflexivity.
  - reflexivity.
Qed.

Lemma shr_1_m (mrs : shr_record) :
  0 <= shr_m mrs -> shr_m (shr_1 mrs) = shr_m mrs / 2.
Proof.
  destruct mrs as [m r s]. cbn [shr_m]. intros Hm.
  destruct m as [|[p|p|]|p]; cbn [shr_1 shr_m].
  - reflexivity.
  - rewrite (Pos2Z.inj_xI p). apply (Z.div_unique _ 2 _ 1); lia.
  - rewrite (Pos2Z.inj_xO p). apply (Z.div_unique _ 2 _ 0); lia.
  - reflexivity.
  - lia.
Qed.

Lemma shr_iter_m (n : nat) (mrs : shr_record) :
  0 <= shr_m mrs ->
  shr_m (Nat.iter n shr_1 mrs) = shr_m mrs / 2 ^ Z.of_nat n.
Proof.
  intros Hm. induction n as [|n IH].
  - cbn. now rewrite Z.div_1_r.
  - change (Nat.iter (S n) shr_1 mrs) with (shr_1 (Nat.iter n shr_1 mrs)).
    rewrite shr_1_m.
    + rewrite IH, Nat2Z.inj_succ, Z.pow_succ_r by lia.
      rewrite Z.div_div by lia. f_equal. lia.
    + rewrite IH. apply Z.div_pos; lia.
Qed.

Lemma shr_record_of_loc_m (m : Z) (l : location) :
  shr_m (shr_record_of_loc m l) = m.
Proof. destruct l as [|[| |]]; reflexivity. Qed.

(** What [shr_fexp] leaves of a mantissa that is not negative. *)
Lemma shr_fexp_truncated (m e : Z) (l : location) :
  0 <= m ->
  (shr_m (fst (shr_fexp prec emax m e l)), snd (shr_fexp prec emax m e l)) =
  truncated m e.
Proof.
  intros Hm. unfold shr_fexp, truncated, dropped_bits, shr.
  destruct (fexp prec emax (Zdigits2 m + e) - e) as [|p|p] eqn:E;
    cbn [fst snd].
  - now rewrite shr_record_of_loc_m.
  - rewrite iter_pos_nat, shr_iter_m by (rewrite shr_record_of_loc_m; exact Hm).
    rewrite shr_record_of_loc_m, positive_nat_Z. reflexivity.
  - now rewrite shr_record_of_loc_m.
Qed.

Lemma round_nearest_even_bounds (m : Z) (l : location) :
  m <= round_nearest_even m l <= m + 1.
Proof.
  destruct l as [|[| |]]; cbn; try lia. destruct (Z.even m); lia.
Qed.

Lemma truncated_nonneg (m e : Z) : 0 <= m -> 0 <= fst (truncated m e).
Proof.
  intros Hm. unfold truncated.
  destruct (Z.ltb_spec 0 (dropped_bits m e)); cbn [fst]; [|exact Hm].
  apply Z.div_pos; [exact Hm | apply Z.pow_pos_nonneg; lia].
Qed.

(** The result of rounding, read off the mantissa and exponent left. *)
Lemma binary_round_aux_cases (s : bool) (m e : Z) (l : location) :
  0 <= m ->
  binary_round_aux prec emax s m e l =
  match fst (rounded m e l) with
  | Z0 => S754_zero s
  | Zpos p =>
      if snd (rounded m e l) <=? emax - prec
      then S754_finite s p (snd (rounded m e l)) else S754_infinity s
  | Zneg _ => S754_nan
  end.
Proof.
  intros Hm. unfold binary_round_aux, rounded.
  pose proof (shr_fexp_truncated m e l Hm) as E1.
  destruct (shr_fexp prec emax m e l) as [mrs1 e1]. cbn [fst snd] in *.
  assert (H1 : 0 <= shr_m mrs1).
  { replace (shr_m mrs1) with (fst (truncated m e)) by (now rewrite <- E1).
    now apply truncated_nonneg. }
  assert (He1 : e1 = snd (truncated m e)) by (now rewrite <- E1).
  pose proof (round_nearest_even_bounds (shr_m mrs1) (loc_of_shr_record mrs1))
    as B.
  pose proof (shr_fexp_truncated
                (round_nearest_even (shr_m mrs1) (loc_of_shr_record mrs1))
                e1 loc_Exact ltac:(lia)) as E2.
  destruct (shr_fexp prec emax _ e1 loc_Exact) as [mrs2 e2].
  cbn [fst snd] in *.
  rewrite <- He1, <- E2. cbn [fst snd]. reflexivity.
Qed.

Lemma rounded_bounds (m e : Z) (l : location) :
  0 <= m ->
  exists m2, fst (truncated m e) <= m2 <= fst (truncated m e) + 1 /\
             rounded m e l = truncated m2 (snd (truncated m e)).
Proof.
  intros Hm. unfold rounded.
  pose proof (shr_fexp_truncated m e l Hm) as E1.
  destruct (shr_fexp prec emax m e l) as [mrs1 e1]. cbn [fst snd] in *.
  exists (round_nearest_even (shr_m mrs1) (loc_of_shr_record mrs1)).
  split; [|reflexivity].
  replace (fst (truncated m e)) with (shr_m mrs1) by (now rewrite <- E1).
  apply round_nearest_even_bounds.
Qed.

Lemma digits2_pos_bounds (p : positive) :
  2 ^ (Zpos (digits2_pos p) - 1) <= Zpos p < 2 ^ Zpos (digits2_pos p).
Proof.
  induction p as [p IH | p IH |]; cbn [digits2_pos].
  - rewrite Pos2Z.inj_succ, (Pos2Z.inj_xI p).
    replace (Z.succ (Zpos (digits2_pos p)) - 1)
      with (Zpos (digits2_pos p)) by lia.
    rewrite Z.pow_succ_r by lia.
    replace (2 ^ Zpos (digits2_pos p))
      with (2 * 2 ^ (Zpos (digits2_pos p) - 1)) in *
      by (rewrite <- Z.pow_succ_r by lia; f_equal; lia).
    lia.
  - rewrite Pos2Z.inj_succ, (Pos2Z.inj_xO p).
    replace (Z.succ (Zpos (digits2_pos p)) - 1)
      with (Zpos (digits2_pos p)) by lia.
    rewrite Z.pow_succ_r by lia.
    replace (2 ^ Zpos (digits2_pos p))
      with (2 * 2 ^ (Zpos (digits2_pos p) - 1)) in *
      by (rewrite <- Z.pow_succ_r by lia; f_equal; lia).
    lia.
  - split; reflexivity.
Qed.

Lemma Zdigits2_bounds (m : Z) :
  0 < m -> 0 < Zdigits2 m /\ 2 ^ (Zdigits2 m - 1) <= m < 2 ^ Zdigits2 m.
Proof.
  destruct m as [|p|p]; try lia. intros _. cbn [Zdigits2].
  split; [lia | apply digits2_pos_bounds].
Qed.

Lemma dropped_bits_eq (m e : Z) :
  dropped_bits m e = Z.max (Zdigits2 m + e - 53) (-1074) - e.
Proof. reflexivity. Qed.

Lemma at_least_one_mono (m m' e : Z) :
  m <= m' -> at_least_one m e -> at_least_one m' e.
Proof. unfold at_least_one. lia. Qed.

Lemma at_least_one_pos (m e : Z) : at_least_one m e -> 0 < m.
Proof.
  intros [[_ H]|[He H]]; [lia|].
  pose proof (Z.pow_pos_nonneg 2 (- e)). lia.
Qed.

(** Truncation keeps a value that is at least 1 at least 1: 1 is on every
    grid the format rounds to. *)
Lemma truncated_at_least_one (m e : Z) :
  at_least_one m e ->
  at_least_one (fst (truncated m e)) (snd (truncated m e)).
Proof.
  intros H. pose proof (at_least_one_pos _ _ H) as Hm.
  destruct (Zdigits2_bounds m Hm) as (Hd & Hlo & Hhi).
  unfold truncated. rewrite dropped_bits_eq.
  set (d := Zdigits2 m) in *.
  destruct (Z.ltb_spec 0 (Z.max (d + e - 53) (-1074) - e)) as [Hk|Hk];
    cbn [fst snd]; [|exact H].
  assert (Hde : 1 <= d + e).
  { destruct H as [[He _]|[He H]]; [lia|].
    assert (2 ^ (- e) < 2 ^ d) by lia.
    apply Z.pow_lt_mono_r_iff in H0; lia. }
  replace (Z.max (d + e - 53) (-1074)) with (d + e - 53) in * by lia.
  replace (d + e - 53 - e) with (d - 53) in * by lia.
  replace (e + (d - 53)) with (d + e - 53) by lia.
  assert (Hq : 2 ^ 52 <= m / 2 ^ (d - 53)).
  { apply Z.div_le_lower_bound; [apply Z.pow_pos_nonneg; lia|].
    rewrite <- Z.pow_add_r by lia.
    replace (d - 53 + 52) with (d - 1) by lia. exact Hlo. }
  unfold at_least_one.
  destruct (Z.le_gt_cases 0 (d + e - 53)) as [He'|He'].
  - left. split; [exact He'|]. change (2 ^ 52) with 4503599627370496 in Hq. lia.
  - right. split; [exact He'|].
    apply Z.le_trans with (2 ^ 52); [|exact Hq].
    apply Z.pow_le_mono_r; lia.
Qed.

Lemma rounded_at_least_one (m e : Z) (l : location) :
  at_least_one m e ->
  at_least_one (fst (rounded m e l)) (snd (rounded m e l)).
Proof.
  intros H. pose proof (at_least_one_pos _ _ H) as Hm.
  destruct (rounded_bounds m e l ltac:(lia)) as (m2 & Hm2 & ->).
  apply truncated_at_least_one.
  apply at_least_one_mono with (fst (truncated m e)); [lia|].
  now apply truncated_at_least_one.
Qed.

(** Rounding a value that is at least 1 gives a float that is at least 1,
    or the infinity. *)
Lemma round_at_least_one (m e : Z) (l : location) :
  at_least_one m e ->
  binary_round_aux prec emax false m e l = S754_infinity false \/
  exists p e', binary_round_aux prec emax false m e l = S754_finite false p e' /\
               at_least_one (Zpos p) e'.
Proof.
  intros H. pose proof (at_least_one_pos _ _ H) as Hm.
  rewrite binary_round_aux_cases by lia.
  pose proof (rounded_at_least_one m e l H) as R.
  pose proof (at_least_one_pos _ _ R) as Rp.
  destruct (fst (rounded m e l)) as [|p|p]; try lia.
  destruct (snd (rounded m e l) <=? emax - prec); [right | left; reflexivity].
  now exists p, (snd (rounded m e l)).
Qed.

End Rounding.

(** ** Python numbers against 1 *)

Section AgainstOne.

Import Binary64.

Lemma truncated_at_most_one (m e : Z) :
  e <= 0 -> 0 <= m <= 2 ^ (- e) ->
  snd (truncated m e) <= 0 /\
  0 <= fst (truncated m e) <= 2 ^ (- snd (truncated m e)).
Proof.
  intros He Hm. unfold truncated. rewrite dropped_bits_eq.
  set (d := Zdigits2 m).
  assert (Hd : d + e <= 1).
  { destruct (Z.eq_dec m 0) as [->|Hm0]; [cbn in d; lia|].
    destruct (Zdigits2_bounds m ltac:(lia)) as (Hd & Hlo & _). fold d in Hd, Hlo.
    assert (H2 : 2 ^ (d - 1) <= 2 ^ (- e)) by lia.
    apply Z.pow_le_mono_r_iff in H2; lia. }
  destruct (Z.ltb_spec 0 (Z.max (d + e - 53) (-1074) - e)) as [Hk|Hk];
    cbn [fst snd]; [|lia].
  set (k := Z.max (d + e - 53) (-1074) - e) in *.
  replace (e + k) with (Z.max (d + e - 53) (-1074)) by (unfold k; lia).
  set (e' := Z.max (d + e - 53) (-1074)) in *.
  assert (He' : e' <= 0) by (unfold e'; lia).
  split; [exact He'|]. split.
  - apply Z.div_pos; [lia | apply Z.pow_pos_nonneg; lia].
  - apply Z.div_le_upper_bound; [apply Z.pow_pos_nonneg; lia|].
    rewrite <- Z.pow_add_r by lia.
    replace (k + - e') with (- e) by (unfold k; lia). lia.
Qed.

Lemma truncated_exponent_nonpos (m e : Z) :
  e <= 0 -> 0 <= m <= 2 ^ (- e) + 1 -> snd (truncated m e) <= 0.
Proof.
  intros He Hm. unfold truncated. rewrite dropped_bits_eq.
  set (d := Zdigits2 m).
  assert (Hd : d + e <= 2).
  { destruct (Z.eq_dec m 0) as [->|Hm0]; [cbn in d; lia|].
    destruct (Zdigits2_bounds m ltac:(lia)) as (Hd & Hlo & _). fold d in Hd, Hlo.
    assert (H1 : 0 < 2 ^ (- e)) by (apply Z.pow_pos_nonneg; lia).
    assert (H2 : 2 ^ (d - 1) <= 2 ^ (- e + 1)).
    { rewrite (Z.pow_add_r 2 (- e) 1) by lia. change (2 ^ 1) with 2. lia. }
    apply Z.pow_le_mono_r_iff in H2; lia. }
  destruct (Z.ltb_spec 0 (Z.max (d + e - 53) (-1074) - e)); cbn [snd]; lia.
Qed.

(** Rounding a value that is at most 1 never gives an infinity. *)
Lemma round_at_most_one (s : bool) (m e : Z) (l : location) :
  e <= 0 -> 0 <= m <= 2 ^ (- e) ->
  is_infinity (binary_round_aux prec emax s m e l) = false.
Proof.
  intros He Hm. rewrite binary_round_aux_cases by lia.
  destruct (rounded_bounds m e l ltac:(lia)) as (m2 & Hm2 & E).
  destruct (truncated_at_most_one m e He Hm) as (He1 & Hm1).
  assert (He3 : snd (rounded m e l) <= 0).
  { rewrite E. apply truncated_exponent_nonpos; [exact He1 | lia]. }
  destruct (fst (rounded m e l)); try reflexivity.
  destruct (Z.leb_spec (snd (rounded m e l)) (emax - prec)) as [_|H];
    [reflexivity|].
  unfold emax, prec in H. lia.
Qed.

(** [1 / b] never overflows. *)
Lemma quotient_one_finite (b : Z) :
  0 < b -> is_infinity (quotient 1 b) = false.
Proof.
  intros Hb. unfold quotient, SFdiv_core_binary.
  rewrite (Z.abs_eq b) by lia. change (Z.abs 1) with 1.
  change (Zdigits2 1) with 1.
  set (e' := Z.min (fexp prec emax (1 + 0 - (Zdigits2 b + 0))) (0 - 0)).
  assert (He' : e' <= 0) by (unfold e'; lia).
  set (m' := match 0 - 0 - e' with
             | 0 => 1
             | Z.pos _ => Z.shiftl 1 (0 - 0 - e')
             | Z.neg _ => 0
             end).
  assert (Hm' : 0 <= m' <= 2 ^ (- e')).
  { unfold m'. replace (0 - 0 - e') with (- e') by lia.
    destruct (- e') as [|p|p] eqn:E.
    - cbn. lia.
    - rewrite Z.shiftl_1_l. split; [apply Z.pow_nonneg|]; lia.
    - lia. }
  pose proof (Z.div_eucl_eq m' b ltac:(lia)) as Hdiv.
  pose proof (Z.mod_pos_bound m' b Hb) as Hmod.
  unfold Z.modulo in Hmod.
  destruct (Z.div_eucl m' b) as [q r].
  apply round_at_most_one; [exact He'|]. nia.
Qed.

Lemma le_one_finite (p : positive) (e : Z) :
  Py.le (Py.Int 1) (Py.Float (S754_finite false p e)) = true <->
  at_least_one (Zpos p) e.
Proof.
  unfold Py.le, Py.compare, Py.value, Py.dyadic_compare, at_least_one.
  destruct (Z.le_gt_cases 0 e) as [He|He].
  - rewrite Z.min_l by lia. rewrite !Z.sub_0_r.
    change (2 ^ 0) with 1. rewrite Z.mul_1_l.
    assert (H : 0 < 2 ^ e) by (apply Z.pow_pos_nonneg; lia).
    destruct (Z.compare_spec 1 (Zpos p * 2 ^ e)); split; intros; try lia;
      try discriminate; try reflexivity; nia.
  - rewrite Z.min_r by lia. rewrite Z.sub_diag, Z.sub_0_l.
    change (2 ^ 0) with 1. rewrite Z.mul_1_l, Z.mul_1_r.
    destruct (Z.compare_spec (2 ^ (- e)) (Zpos p)); split; intros; try lia;
      try discriminate; try reflexivity.
Qed.

Lemma le_one_float (x : spec_float) :
  Py.le (Py.Int 1) (Py.Float x) = true <-> float_at_least_one x.
Proof.
  unfold float_at_least_one. destruct x as [s|[|]| |[|] p e].
  - split; [discriminate | intros [H|(p & e & H & _)]; discriminate].
  - split; [discriminate | intros [H|(p & e & H & _)]; discriminate].
  - split; [now left | reflexivity].
  - split; [discriminate | intros [H|(p & e & H & _)]; discriminate].
  - split; [|intros [H|(p' & e' & H & _)]; discriminate].
    unfold Py.le, Py.compare, Py.value, Py.dyadic_compare. intros H.
    exfalso. revert H.
    assert (0 < 1 * 2 ^ (0 - Z.min 0 e)) by (apply Z.mul_pos_pos;
      [lia | apply Z.pow_pos_nonneg; lia]).
    assert (0 <= 2 ^ (e - Z.min 0 e)) by (apply Z.pow_nonneg; lia).
    destruct (Z.compare_spec (1 * 2 ^ (0 - Z.min 0 e))
                (Z.neg p * 2 ^ (e - Z.min 0 e))); try discriminate; nia.
  - rewrite le_one_finite. split.
    + intros H. right. now exists p, e.
    + intros [H|(p' & e' & [= -> ->] & H)]; [discriminate | exact H].
Qed.

Lemma at_least_one_mul (m1 e1 m2 e2 : Z) :
  at_least_one m1 e1 -> at_least_one m2 e2 ->
  at_least_one (m1 * m2) (e1 + e2).
Proof.
  intros H1 H2.
  pose proof (at_least_one_pos _ _ H1) as P1.
  pose proof (at_least_one_pos _ _ H2) as P2.
  unfold at_least_one in *.
  destruct (Z.le_gt_cases 0 (e1 + e2)) as [He|He]; [left; nia|].
  right. split; [exact He|].
  assert (B1 : 2 ^ (Z.max 0 (- e1)) <= m1).
  { destruct H1 as [[? ?]|[? ?]].
    - rewrite Z.max_l by lia. cbn. lia.
    - rewrite Z.max_r by lia. assumption. }
  assert (B2 : 2 ^ (Z.max 0 (- e2)) <= m2).
  { destruct H2 as [[? ?]|[? ?]].
    - rewrite Z.max_l by lia. cbn. lia.
    - rewrite Z.max_r by lia. assumption. }
  apply Z.le_trans with (2 ^ (Z.max 0 (- e1) + Z.max 0 (- e2))).
  - apply Z.pow_le_mono_r; lia.
  - rewrite Z.pow_add_r by lia.
    apply Z.mul_le_mono_nonneg; try assumption; apply Z.pow_nonneg; lia.
Qed.

(** The product of two floats that are at least 1 is at least 1. *)
Lemma mul_at_least_one (x y : spec_float) :
  float_at_least_one x -> float_at_least_one y ->
  float_at_least_one (mul x y).
Proof.
  intros [->|(p1 & e1 & -> & H1)] [->|(p2 & e2 & -> & H2)];
    try (left; reflexivity).
  unfold mul, SFmul. cbn [xorb].
  apply (round_at_least_one (Zpos (p1 * p2)) (e1 + e2) loc_Exact).
  rewrite Pos2Z.inj_mul. now apply at_least_one_mul.
Qed.

Lemma iter_xO (p d : positive) :
  Zpos (Pos.iter xO p d) = Zpos p * 2 ^ Zpos d.
Proof.
  induction d as [|d IH] using Pos.peano_ind.
  - cbn. lia.
  - rewrite Pos.iter_succ, Pos2Z.inj_succ, Z.pow_succ_r by lia.
    rewrite (Pos2Z.inj_xO (Pos.iter xO p d)), IH. lia.
Qed.

(** The float nearest to an integer that is at least 1 is at least 1. *)
Lemma of_Z_at_least_one (z : Z) :
  1 <= z -> float_at_least_one (of_Z z).
Proof.
  intros Hz. destruct z as [|p|p]; try lia.
  unfold of_Z, binary_normalize, binary_round, shl_align.
  destruct (fexp prec emax (Zpos (digits2_pos p) + 0) - 0) as [|d|d] eqn:E.
  - apply round_at_least_one. left. lia.
  - apply round_at_least_one. left. lia.
  - apply round_at_least_one. right.
    assert (He : fexp prec emax (Zpos (digits2_pos p) + 0) = Zneg d) by lia.
    rewrite He. split; [lia|].
    rewrite iter_xO. change (- Zneg d) with (Zpos d).
    assert (0 < 2 ^ Zpos d) by (apply Z.pow_pos_nonneg; lia). nia.
Qed.

Lemma float_of_int_at_least_one (z : Z) (x : spec_float) :
  1 <= z -> Py.float_of_int z = Ok x -> float_at_least_one x.
Proof.
  intros Hz. unfold Py.float_of_int.
  destruct (is_infinity (of_Z z)); [discriminate|].
  intros [= <-]. now apply of_Z_at_least_one.
Qed.

Lemma le_one_int (z : Z) : Py.le (Py.Int 1) (Py.Int z) = true <-> 1 <= z.
Proof.
  unfold Py.le, Py.compare, Py.value, Py.dyadic_compare.
  cbn [Z.min Z.sub Z.opp Z.add Z.pow Z.pow_pos Pos.iter Z.compare].
  rewrite !Z.mul_1_r.
  destruct (Z.compare_spec 1 z); split; intros; try lia; try discriminate;
    reflexivity.
Qed.

(** The operand of a float operation, from a number that is at least 1. *)
Lemma as_float_at_least_one (a : Py.num) (x : spec_float) :
  Py.le (Py.Int 1) a = true -> Py.as_float a = Ok x ->
  float_at_least_one x.
Proof.
  destruct a as [z|y]; cbn [Py.as_float].
  - rewrite le_one_int. apply float_of_int_at_least_one.
  - rewrite le_one_float. now intros H [= <-].
Qed.

(** [a * b] keeps two numbers that are at least 1 at least 1. *)
Lemma py_mul_at_least_one (a b c : Py.num) :
  Py.le (Py.Int 1) a = true -> Py.le (Py.Int 1) b = true ->
  Py.mul a b = Ok c -> Py.le (Py.Int 1) c = true.
Proof.
  intros Ha Hb. unfold Py.mul.
  assert (G : and_then (Py.as_float a) (fun x =>
              and_then (Py.as_float b) (fun y =>
              Ok (Py.Float (mul x y)))) = Ok c ->
              Py.le (Py.Int 1) c = true).
  { destruct (Py.as_float a) as [x|] eqn:Ea; [|discriminate].
    destruct (Py.as_float b) as [y|] eqn:Eb; [|discriminate].
    cbn [and_then]. intros [= <-]. apply le_one_float.
    apply mul_at_least_one;
      [apply (as_float_at_least_one a) | apply (as_float_at_least_one b)];
      assumption. }
  destruct a as [x|x], b as [y|y]; try exact G.
  intros [= <-]. apply le_one_int. apply le_one_int in Ha, Hb. nia.
Qed.

(** A float that is positive: an infinity or a finite non-zero value. *)
Lemma lt_zero_float (x : spec_float) :
  Py.lt (Py.Int 0) (Py.Float x) = true ->
  x = S754_infinity false \/ exists p e, x = S754_finite false p e.
Proof.
  destruct x as [s|[|]| |[|] p e]; try discriminate.
  - now left.
  - unfold Py.lt, Py.compare, Py.value, Py.dyadic_compare.
    rewrite Z.mul_0_l.
    assert (0 <= 2 ^ (e - Z.min 0 e)) by (apply Z.pow_nonneg; lia).
    destruct (Z.compare_spec 0 (Z.neg p * 2 ^ (e - Z.min 0 e)));
      try discriminate; nia.
  - intros _. right. now exists p, e.
Qed.

(** The product of a float that is at least 1 and a positive float is a
    number. *)
Lemma mul_positive_not_nan (x y : spec_float) :
  float_at_least_one x ->
  y = S754_infinity false \/ (exists p e, y = S754_finite false p e) ->
  mul x y <> S754_nan.
Proof.
  intros [->|(p1 & e1 & -> & _)] [->|(p2 & e2 & ->)]; try discriminate.
  unfold mul, SFmul. rewrite binary_round_aux_cases by lia.
  pose proof (rounded_bounds (Zpos (p1 * p2)) (e1 + e2) loc_Exact ltac:(lia))
    as (m2 & Hm2 & E).
  pose proof (truncated_nonneg (Zpos (p1 * p2)) (e1 + e2) ltac:(lia)) as N1.
  pose proof (truncated_nonneg m2
                (snd (truncated (Zpos (p1 * p2)) (e1 + e2))) ltac:(lia)) as N2.
  rewrite <- E in N2.
  destruct (fst (rounded (Zpos (p1 * p2)) (e1 + e2) loc_Exact));
    try discriminate; [|lia].
  destruct (_ <=? _); discriminate.
Qed.

(** [max(p, 1)] is at least 1 unless [p] is NaN. *)
Lemma max_one_at_least_one (p : Py.num) :
  Py.compare (Py.Int 1) p <> None ->
  Py.le (Py.Int 1) (Py.max p (Py.Int 1)) = true.
Proof.
  intros H. unfold Py.max, Py.gt, Py.le in *.
  destruct (Py.compare (Py.Int 1) p) as [[| |]|] eqn:E;
    try rewrite E; try reflexivity.
  contradiction.
Qed.

Lemma compare_one_float (x : spec_float) :
  x <> S754_nan -> Py.compare (Py.Int 1) (Py.Float x) <> None.
Proof. destruct x as [s|s| |s p e]; cbn; congruence. Qed.

End AgainstOne.

(** ** What multiplication and division can raise *)

Section Arithmetic.

Lemma as_float_raises (a : Py.num) (e : exn) :
  Py.as_float a = Raise e -> e = OverflowError.
Proof.
  destruct a as [z|x]; cbn [Py.as_float]; [|discriminate].
  unfold Py.float_of_int. destruct (Binary64.is_infinity _); congruence.
Qed.

Lemma mul_raises (a b : Py.num) (e : exn) :
  Py.mul a b = Raise e -> e = OverflowError.
Proof.
  assert (G : and_then (Py.as_float a) (fun x =>
              and_then (Py.as_float b) (fun y =>
              Ok (Py.Float (Binary64.mul x y)))) = Raise e ->
              e = OverflowError).
  { destruct (Py.as_float a) as [x|e1] eqn:Ea; cbn [and_then].
    - destruct (Py.as_float b) as [y|e2] eqn:Eb; cbn [and_then];
        [discriminate|].
      intros [= <-]. exact (as_float_raises _ _ Eb).
    - intros [= <-]. exact (as_float_raises _ _ Ea). }
  unfold Py.mul. destruct a as [x|x], b as [y|y]; try exact G. discriminate.
Qed.

(** A product with a float is a float. *)
Lemma mul_float_r (a : Py.num) (y : spec_float) (c : Py.num) :
  Py.mul a (Py.Float y) = Ok c -> exists x, c = Py.Float x.
Proof.
  unfold Py.mul. 
  assert (G : and_then (Py.as_float a) (fun x =>
              and_then (Py.as_float (Py.Float y)) (fun y' =>
              Ok (Py.Float (Binary64.mul x y')))) = Ok c ->
              exists x, c = Py.Float x).
  { destruct (Py.as_float a) as [x|]; cbn; [|discriminate].
    intros [= <-]. eauto. }
  destruct a; exact G.
Qed.

(** A quotient is a float. *)
Lemma truediv_float (a b c : Py.num) :
  Py.truediv a b = Ok c -> exists x, c = Py.Float x.
Proof.
  assert (G : and_then (Py.as_float a) (fun x =>
              and_then (Py.as_float b) (fun y =>
              if Binary64.is_zero y then Raise ZeroDivisionError
              else Ok (Py.Float (Binary64.div x y)))) = Ok c ->
              exists x, c = Py.Float x).
  { destruct (Py.as_float a) as [x|]; cbn [and_then]; [|discriminate].
    destruct (Py.as_float b) as [y|]; cbn [and_then]; [|discriminate].
    destruct (Binary64.is_zero y); [discriminate|]. intros [= <-]. eauto. }
  unfold Py.truediv. destruct a as [x|x], b as [y|y]; try exact G.
  unfold Py.int_truediv.
  destruct (y =? 0); [discriminate|].
  destruct (x =? 0); [intros [= <-]; eauto|].
  destruct (Binary64.is_infinity _); [discriminate|]. intros [= <-]. eauto.
Qed.

(** A scale the overflow branch assigned can be multiplied by a float. *)
Lemma mul_assigned_by_max (a : Py.num) (y : spec_float) :
  DynamicLossScaleManager.assigned_by_max a ->
  exists c, Py.mul a (Py.Float y) = Ok c.
Proof.
  destruct a as [z|x]; cbn.
  - intros ->. eexists. reflexivity.
  - intros _. eexists. reflexivity.
Qed.

Lemma max_assigned_by_max (x : spec_float) :
  DynamicLossScaleManager.assigned_by_max (Py.max (Py.Float x) (Py.Int 1)).
Proof. unfold Py.max. destruct (Py.gt _ _); cbn; auto. Qed.

Lemma compare_antisym (a b : Py.num) :
  Py.compare b a = option_map CompOpp (Py.compare a b).
Proof.
  unfold Py.compare.
  destruct (Py.value a) as [|[|]|m1 e1], (Py.value b) as [|[|]|m2 e2];
    try reflexivity.
  cbn [option_map]. f_equal. unfold Py.dyadic_compare.
  rewrite (Z.min_comm e2 e1). apply Z.compare_antisym.
Qed.

Lemma le_not_lt (a b : Py.num) :
  Py.le a b = true -> Py.lt b a = false.
Proof.
  unfold Py.le, Py.lt. rewrite (compare_antisym a b).
  destruct (Py.compare a b) as [[| |]|]; cbn; congruence.
Qed.

Lemma lt_not_le (a b : Py.num) :
  Py.lt a b = true -> Py.le b a = false.
Proof.
  unfold Py.le, Py.lt. rewrite (compare_antisym a b).
  destruct (Py.compare a b) as [[| |]|]; cbn; congruence.
Qed.

Lemma mul_compare_r (n m p : Z) :
  0 < p -> (n * p ?= m * p) = (n ?= m).
Proof.
  intros Hp. destruct (Z.compare_spec n m) as [->|H|H].
  - apply Z.compare_refl.
  - apply Z.compare_lt_iff. nia.
  - apply Z.compare_gt_iff. nia.
Qed.

(** Comparing with [1.0] is comparing with [1]. *)
Lemma dyadic_compare_one (m e : Z) :
  Py.dyadic_compare m e 4503599627370496 (-52) = Py.dyadic_compare m e 1 0.
Proof.
  unfold Py.dyadic_compare. change 4503599627370496 with (2 ^ 52).
  destruct (Z.le_gt_cases 0 e) as [He|He];
    [|destruct (Z.le_gt_cases (-52) e) as [He'|He']].
  - rewrite (Z.min_r e (-52)), (Z.min_r e 0) by lia.
    replace (m * 2 ^ (e - -52)) with (m * 2 ^ e * 2 ^ 52)
      by (rewrite <- Z.mul_assoc, <- Z.pow_add_r by lia; do 2 f_equal; lia).
    replace (2 ^ 52 * 2 ^ (-52 - -52)) with (1 * 2 ^ 52) by reflexivity.
    rewrite mul_compare_r by reflexivity.
    rewrite Z.sub_0_r. reflexivity.
  - rewrite (Z.min_r e (-52)), (Z.min_l e 0) by lia.
    assert (E52 : 2 ^ 52 * 2 ^ (-52 - -52) = 2 ^ (0 - e) * 2 ^ (e - -52)).
    { rewrite <- (Z.pow_add_r 2 (0 - e) (e - -52)) by lia.
      replace (0 - e + (e - -52)) with 52 by lia. reflexivity. }
    rewrite E52.
    rewrite mul_compare_r by (apply Z.pow_pos_nonneg; lia).
    rewrite Z.sub_diag. change (2 ^ 0) with 1. now rewrite Z.mul_1_r, Z.mul_1_l.
  - rewrite (Z.min_l e (-52)), (Z.min_l e 0) by lia.
    f_equal. rewrite <- Z.pow_add_r by lia. rewrite Z.mul_1_l. f_equal. lia.
Qed.

Lemma compare_float_one (a : Py.num) :
  Py.compare a (Py.Float Binary64.one) = Py.compare a (Py.Int 1).
Proof.
  unfold Py.compare. cbn [Py.value Binary64.one].
  destruct (Py.value a) as [|[|]|m e]; try reflexivity.
  now rewrite dyadic_compare_one.
Qed.

Lemma lt_float_one (a : Py.num) :
  Py.lt a (Py.Float Binary64.one) = Py.lt a (Py.Int 1).
Proof. unfold Py.lt. now rewrite compare_float_one. Qed.

Lemma compare_int (x y : Z) :
  Py.compare (Py.Int x) (Py.Int y) = Some (x ?= y).
Proof.
  unfold Py.compare, Py.value, Py.dyadic_compare.
  change (2 ^ (0 - Z.min 0 0)) with 1. now rewrite !Z.mul_1_r.
Qed.

(** [1 / f] raises nothing when [f <= 0] is false. *)
Lemma truediv_one_ok (f : Py.num) :
  Py.le f (Py.Int 0) = false -> exists ratio, Py.truediv (Py.Int 1) f = Ok ratio.
Proof.
  destruct f as [b|y]; intros H.
  - unfold Py.truediv, Py.int_truediv.
    assert (Hb : 0 < b).
    { unfold Py.le in H. rewrite compare_int in H.
      destruct (Z.compare_spec b 0); try discriminate. lia. }
    destruct (Z.eqb_spec b 0); [lia|]. cbn [Z.eqb].
    rewrite (quotient_one_finite b Hb). eauto.
  - unfold Py.truediv. cbn [Py.as_float]. 
    change (Py.float_of_int 1) with (@Ok spec_float Binary64.one).
    cbn [and_then].
    destruct y; try (eexists; reflexivity). discriminate.
Qed.

End Arithmetic.

(** ** The two branches of [update_loss_scale], unfolded *)

Section Branches.

Import DynamicLossScaleManager.

Lemma update_loss_scale_overflow (self : t) :
  update_loss_scale true self =
  match Py.mul (loss_scale self) (decrease_ratio self) with
  | Raise e => (self, Raise e)
  | Ok product =>
      if bad_step self + 1 >? bad_step_max self
      then (after_overflow product self,
            Raise (RuntimeError (bad_step self + 1)))
      else (set_cur_iter (cur_iter self + 1) (after_overflow product self),
            Ok tt)
  end.
Proof.
  unfold update_loss_scale, bind, this, assign, pass, ret, raise, eval; cbn.
  destruct (Py.mul (loss_scale self) (decrease_ratio self)); [|reflexivity].
  cbn. destruct (bad_step self + 1 >? bad_step_max self); reflexivity.
Qed.

Lemma update_loss_scale_zero_window (self : t) :
  scale_window self = 0 ->
  update_loss_scale false self = (self, Raise ZeroDivisionError).
Proof.
  intros Hw.
  unfold update_loss_scale, bind, this, py_mod, raise; cbn.
  rewrite Hw; reflexivity.
Qed.

Lemma update_loss_scale_normal (self : t) :
  scale_window self <> 0 ->
  update_loss_scale false self =
  if due self
  then match Py.mul (loss_scale self) (increase_ratio self) with
       | Raise e => (self, Raise e)
       | Ok product =>
           if 0 >? bad_step_max self
           then (after_normal product self, Raise (RuntimeError 0))
           else (set_cur_iter (cur_iter self + 1) (after_normal product self),
                 Ok tt)
       end
  else if 0 >? bad_step_max self
       then (after_normal (loss_scale self) self, Raise (RuntimeError 0))
       else (set_cur_iter (cur_iter self + 1)
               (after_normal (loss_scale self) self), Ok tt).
Proof.
  intros Hw. apply Z.eqb_neq in Hw.
  unfold update_loss_scale, bind, this, assign, pass, ret, raise, eval,
    py_mod, due; cbn.
  rewrite Hw; cbn.
  destruct ((cur_iter self - last_overflow_iter self) mod scale_window self
            =? 0); cbn.
  - destruct (Py.mul (loss_scale self) (increase_ratio self)); [|reflexivity].
    cbn. destruct (0 >? bad_step_max self); reflexivity.
  - destruct (0 >? bad_step_max self); destruct self; reflexivity.
Qed.

End Branches.

(** ** What construction establishes and every call keeps *)

Section Configuration.

Import DynamicLossScaleManager.

Lemma init_ok_inv (i f : Py.num) (w : Z) (self : t) :
  __init__ i f w = Ok self ->
  exists ratio,
    Py.truediv (Py.Int 1) f = Ok ratio /\
    self = mk i w f f ratio 1 0 1000 0 /\
    Py.lt i (Py.Int 1) = false /\ Py.le f (Py.Int 0) = false /\ 1 <= w.
Proof.
  unfold __init__, Validator.check_positive_int.
  rewrite lt_float_one.
  destruct (Py.lt i (Py.Int 1)) eqn:Ei; [discriminate|].
  destruct (Z.ltb_spec w 1); [discriminate|].
  destruct (Py.le f (Py.Int 0)) eqn:Ef; [discriminate|].
  destruct (Py.truediv (Py.Int 1) f) as [ratio|] eqn:Er; [|discriminate].
  intros [= <-]. exists ratio. repeat split. assumption.
Qed.

Lemma init_configured (i f : Py.num) (w : Z) (self : t) :
  __init__ i f w = Ok self -> configured self.
Proof.
  intros H. apply init_ok_inv in H as (ratio & Hr & -> & _ & _ & Hw).
  constructor; cbn; try reflexivity; try assumption; lia.
Qed.

Lemma configured_decrease_float (self : t) :
  configured self -> exists d, decrease_ratio self = Py.Float d.
Proof.
  intros C. exact (truediv_float _ _ _ (decrease_is_quotient _ C)).
Qed.

(** On a configured object the call without overflow does not divide by
    zero, and only the multiplication can raise. *)
Lemma update_loss_scale_false (self : t) :
  configured self ->
  update_loss_scale false self =
  if due self
  then match Py.mul (loss_scale self) (increase_ratio self) with
       | Raise e => (self, Raise e)
       | Ok product =>
           (set_cur_iter (cur_iter self + 1) (after_normal product self),
            Ok tt)
       end
  else (set_cur_iter (cur_iter self + 1)
          (after_normal (loss_scale self) self), Ok tt).
Proof.
  intros C. rewrite update_loss_scale_normal.
  - now rewrite (ceiling_is_1000 _ C).
  - pose proof (window_positive _ C). lia.
Qed.

Lemma update_loss_scale_true (self : t) :
  configured self ->
  update_loss_scale true self =
  match Py.mul (loss_scale self) (decrease_ratio self) with
  | Raise e => (self, Raise e)
  | Ok product =>
      if bad_step self + 1 >? 1000
      then (after_overflow product self,
            Raise (RuntimeError (bad_step self + 1)))
      else (set_cur_iter (cur_iter self + 1) (after_overflow product self),
            Ok tt)
  end.
Proof.
  intros C. rewrite update_loss_scale_overflow.
  now rewrite (ceiling_is_1000 _ C).
Qed.

Lemma update_configured (overflow : bool) (self : t) :
  configured self -> configured (fst (update_loss_scale overflow self)).
Proof.
  intros C. destruct overflow.
  - rewrite (update_loss_scale_true _ C).
    destruct (configured_decrease_float _ C) as [d Hd].
    destruct (Py.mul (loss_scale self) (decrease_ratio self)) as [p|] eqn:Em;
      [|exact C].
    rewrite Hd in Em. destruct (mul_float_r _ _ _ Em) as [x ->].
    destruct C. destruct (bad_step self + 1 >? 1000);
      constructor; cbn; try assumption; try lia;
      intros _; apply max_assigned_by_max.
  - rewrite (update_loss_scale_false _ C).
    destruct (due self);
      [destruct (Py.mul (loss_scale self) (increase_ratio self));
       [|exact C]|];
      destruct C; constructor; cbn; try assumption; lia.
Qed.

Lemma reachable_configured (self : t) : reachable self -> configured self.
Proof.
  induction 1 as [i f w self H | self overflow _ IH].
  - exact (init_configured _ _ _ _ H).
  - exact (update_configured _ _ IH).
Qed.

Lemma reachable_normally_reachable (self : t) :
  reachable_normally self -> reachable self.
Proof.
  induction 1 as [i f w self H | self overflow self' _ IH Hcall].
  - exact (reachable_init _ _ _ _ H).
  - change self' with (fst (self', @Ok unit tt)). rewrite <- Hcall.
    now apply reachable_call.
Qed.

Lemma run_app (l1 l2 : list bool) (self : t) :
  run (l1 ++ l2) self = run l2 (run l1 self).
Proof.
  revert self. induction l1 as [|b l1 IH]; intros self; cbn; [reflexivity|].
  apply IH.
Qed.

Lemma outcomes_app (l1 l2 : list bool) (self : t) :
  outcomes (l1 ++ l2) self = outcomes l1 self ++ outcomes l2 (run l1 self).
Proof.
  revert self. induction l1 as [|b l1 IH]; intros self; cbn; [reflexivity|].
  now rewrite IH.
Qed.

Lemma run_reachable (l : list bool) (self : t) :
  reachable self -> reachable (run l self).
Proof.
  revert self. induction l as [|b l IH]; intros self R; cbn; [assumption|].
  apply IH. now apply reachable_call.
Qed.

Lemma run_configured (overflows : list bool) (self : t) :
  configured self -> configured (run overflows self).
Proof.
  revert self. induction overflows as [|b l IH]; intros self C; cbn [run].
  - exact C.
  - exact (IH _ (update_configured b _ C)).
Qed.

(** An object the overflow branch can work on: the product is computed. *)
Lemma streak_multiplies (self : t) :
  configured self -> assigned_by_max (loss_scale self) ->
  exists product, Py.mul (loss_scale self) (decrease_ratio self) = Ok product.
Proof.
  intros C A. destruct (configured_decrease_float _ C) as [d ->].
  now apply mul_assigned_by_max.
Qed.

End Configuration.

(** ** The dynamic manager: one call *)

Section OneCall.

Import DynamicLossScaleManager.

Lemma scenario_a_constructed :
  __init__ (Py.Int 1024) (Py.Int 2) 3 = Ok scenario_a.
Proof. reflexivity. Qed.

Lemma scenario_b_constructed :
  __init__ (Py.Int 2) (Py.Int 2) 1 = Ok scenario_b.
Proof. reflexivity. Qed.

Lemma huge_constructed :
  __init__ (Py.Int (2 ^ 1024)) (Py.Int 2) 1 = Ok huge.
Proof. vm_compute. reflexivity. Qed.

Lemma infinite_constructed :
  __init__ (Py.Float (S754_infinity false)) (Py.Int (2 ^ 1024)) 1 =
  Ok infinite.
Proof. vm_compute. reflexivity. Qed.

Lemma scenario_a_reachable : reachable scenario_a.
Proof. exact (reachable_init _ _ _ _ scenario_a_constructed). Qed.

Lemma scenario_b_at_ceiling_reachable : reachable scenario_b_at_ceiling.
Proof.
  apply run_reachable. exact (reachable_init _ _ _ _ scenario_b_constructed).
Qed.

Lemma huge_reachable : reachable huge.
Proof. exact (reachable_init _ _ _ _ huge_constructed). Qed.

Lemma infinite_overflowed_reachable : reachable (run [true] infinite).
Proof.
  apply run_reachable. exact (reachable_init _ _ _ _ infinite_constructed).
Qed.

(** C2, as stated, fails.  [DynamicLossScaleManager(2**1024, 2, 1)] is
    accepted; its integer scale is too large to convert to float, so the
    product of the overflow branch raises [OverflowError] before anything is
    assigned: [last_overflow_iter] stays 0 where [cur_iter] is 1, and
    [bad_step] stays 0. *)
Lemma overflow_call_on_huge_scale :
  __init__ (Py.Int (2 ^ 1024)) (Py.Int 2) 1 = Ok huge /\
  reachable huge /\
  update_loss_scale true huge = (huge, Raise OverflowError) /\
  cur_iter huge = 1 /\
  last_overflow_iter (fst (update_loss_scale true huge)) = 0 /\
  last_overflow_iter (fst (update_loss_scale true huge)) <> cur_iter huge /\
  bad_step (fst (update_loss_scale true huge)) <> bad_step huge + 1.
Proof.
  split; [exact huge_constructed|]. split; [exact huge_reachable|].
  assert (E : update_loss_scale true huge = (huge, Raise OverflowError))
    by (vm_compute; reflexivity).
  rewrite E. cbn. repeat split; try reflexivity; discriminate.
Qed.

(** C2, amended.  In every reachable state the decrease ratio is the float
    [1 / scale_factor] computed at construction.  An overflow call whose
    product [loss_scale * decrease_ratio] is computed sets [loss_scale] to
    [max(product, 1)], sets [last_overflow_iter] to the value [cur_iter] had
    before the call and adds exactly one to [bad_step], whether or not the
    call then raises the [RuntimeError].  When the product raises, it
    raises [OverflowError], the call raises it and the object is left as it
    was. *)
Theorem overflow_call_backs_off (self : t) :
  reachable self ->
  Py.truediv (Py.Int 1) (scale_factor self) = Ok (decrease_ratio self) /\
  match Py.mul (loss_scale self) (decrease_ratio self) with
  | Ok product =>
      loss_scale (fst (update_loss_scale true self)) =
        Py.max product (Py.Int 1) /\
      last_overflow_iter (fst (update_loss_scale true self)) = cur_iter self /\
      bad_step (fst (update_loss_scale true self)) = bad_step self + 1
  | Raise e =>
      e = OverflowError /\ update_loss_scale true self = (self, Raise e)
  end.
Proof.
  intros R. pose proof (reachable_configured _ R) as C.
  split; [exact (decrease_is_quotient _ C)|].
  rewrite (update_loss_scale_true _ C).
  destruct (Py.mul (loss_scale self) (decrease_ratio self)) as [p|e] eqn:E.
  - destruct (bad_step self + 1 >? 1000); cbn; repeat split.
  - split; [exact (mul_raises _ _ _ E) | reflexivity].
Qed.

Lemma overflow_call_backs_off_witness :
  reachable scenario_a /\
  Py.truediv (Py.Int 1) (scale_factor scenario_a) =
    Ok (decrease_ratio scenario_a) /\
  match Py.mul (loss_scale scenario_a) (decrease_ratio scenario_a) with
  | Ok product =>
      loss_scale (fst (update_loss_scale true scenario_a)) =
        Py.max product (Py.Int 1) /\
      last_overflow_iter (fst (update_loss_scale true scenario_a)) =
        cur_iter scenario_a /\
      bad_step (fst (update_loss_scale true scenario_a)) =
        bad_step scenario_a + 1
  | Raise e =>
      e = OverflowError /\
      update_loss_scale true scenario_a = (scenario_a, Raise e)
  end.
Proof.
  split; [exact scenario_a_reachable|].
  apply (overflow_call_backs_off scenario_a). exact scenario_a_reachable.
Defined.

(** C6, as stated, fails.  On
    [DynamicLossScaleManager(float('inf'), 2**1024, 1)] an overflow call
    returns normally with [bad_step] 1; the call without overflow after it
    finds the window due, and the product of the infinite scale and the
    integer factor raises [OverflowError] before [bad_step] is assigned: it
    stays 1. *)
Lemma normal_call_keeps_bad_step :
  __init__ (Py.Float (S754_infinity false)) (Py.Int (2 ^ 1024)) 1 =
    Ok infinite /\
  reachable (run [true] infinite) /\
  outcomes [true] infinite = [Ok tt] /\
  bad_step (run [true] infinite) = 1 /\
  snd (update_loss_scale false (run [true] infinite)) = Raise OverflowError /\
  bad_step (fst (update_loss_scale false (run [true] infinite))) = 1 /\
  bad_step (fst (update_loss_scale false (run [true] infinite))) <> 0.
Proof.
  split; [exact infinite_constructed|].
  split; [exact infinite_overflowed_reachable|].
  repeat split; try (vm_compute; reflexivity).
  vm_compute. discriminate.
Qed.

(** C6, amended.  In every reachable state, whatever the length of the
    streak before, a call without overflow that returns normally leaves
    [bad_step] at 0.  The call returns normally unless the window is due
    and the product [loss_scale * increase_ratio] raises [OverflowError];
    then the call raises it and the object, [bad_step] included, is left as
    it was. *)
Theorem normal_call_resets_bad_step (self : t) :
  reachable self ->
  match snd (update_loss_scale false self) with
  | Ok _ => bad_step (fst (update_loss_scale false self)) = 0
  | Raise e =>
      e = OverflowError /\
      due self = true /\
      Py.mul (loss_scale self) (increase_ratio self) = Raise OverflowError /\
      fst (update_loss_scale false self) = self
  end.
Proof.
  intros R. rewrite (update_loss_scale_false _ (reachable_configured _ R)).
  destruct (due self); [|reflexivity].
  destruct (Py.mul (loss_scale self) (increase_ratio self)) as [p|e] eqn:E;
    [reflexivity|].
  pose proof (mul_raises _ _ _ E) as ->. cbn. repeat split.
Qed.

Lemma normal_call_resets_bad_step_witness :
  reachable scenario_b_at_ceiling /\
  bad_step scenario_b_at_ceiling = 1000 /\
  match snd (update_loss_scale false scenario_b_at_ceiling) with
  | Ok _ => bad_step (fst (update_loss_scale false scenario_b_at_ceiling)) = 0
  | Raise e =>
      e = OverflowError /\
      due scenario_b_at_ceiling = true /\
      Py.mul (loss_scale scenario_b_at_ceiling)
             (increase_ratio scenario_b_at_ceiling) = Raise OverflowError /\
      fst (update_loss_scale false scenario_b_at_ceiling) =
        scenario_b_at_ceiling
  end.
Proof.
  split; [exact scenario_b_at_ceiling_reachable|].
  split; [vm_compute; reflexivity|].
  apply (normal_call_resets_bad_step scenario_b_at_ceiling).
  exact scenario_b_at_ceiling_reachable.
Defined.

(** C5, as stated, fails: on the call that raises, [cur_iter] is not
    incremented.  After 1000 overflow calls on
    [DynamicLossScaleManager(2, 2, 1)] the next overflow call raises and
    leaves [cur_iter] at 1001. *)
Lemma cur_iter_kept_on_raise :
  reachable scenario_b_at_ceiling /\
  cur_iter scenario_b_at_ceiling = 1001 /\
  snd (update_loss_scale true scenario_b_at_ceiling) =
    Raise (RuntimeError 1001) /\
  cur_iter (fst (update_loss_scale true scenario_b_at_ceiling)) = 1001 /\
  cur_iter (fst (update_loss_scale true scenario_b_at_ceiling)) <>
    cur_iter scenario_b_at_ceiling + 1.
Proof.
  split; [exact scenario_b_at_ceiling_reachable|].
  repeat split; try (vm_compute; reflexivity).
  vm_compute. discriminate.
Qed.

(** One call moves [cur_iter] by one when it returns and not at all when it
    raises. *)
Lemma update_cur_iter (overflow : bool) (self : t) :
  configured self ->
  cur_iter (fst (update_loss_scale overflow self)) =
  cur_iter self +
  (if returns_normally (snd (update_loss_scale overflow self)) then 1 else 0).
Proof.
  intros C. destruct overflow.
  - rewrite (update_loss_scale_true _ C).
    destruct (Py.mul _ _); [|cbn; lia].
    destruct (_ >? _); cbn; lia.
  - rewrite (update_loss_scale_false _ C).
    destruct (due self); [destruct (Py.mul _ _)|]; cbn; lia.
Qed.

(** C5, amended.  In every reachable state and for either input,
    [update_loss_scale] adds exactly one to [cur_iter] when it returns
    normally, and leaves [cur_iter] as it was when it raises. *)
Theorem cur_iter_incremented_on_return (self : t) (overflow : bool) :
  reachable self ->
  match snd (update_loss_scale overflow self) with
  | Ok _ =>
      cur_iter (fst (update_loss_scale overflow self)) = cur_iter self + 1
  | Raise _ =>
      cur_iter (fst (update_loss_scale overflow self)) = cur_iter self
  end.
Proof.
  intros R. rewrite (update_cur_iter overflow _ (reachable_configured _ R)).
  destruct (snd (update_loss_scale overflow self)); cbn; lia.
Qed.

Lemma cur_iter_incremented_on_return_witness :
  reachable scenario_a /\
  match snd (update_loss_scale false scenario_a) with
  | Ok _ =>
      cur_iter (fst (update_loss_scale false scenario_a)) =
        cur_iter scenario_a + 1
  | Raise _ =>
      cur_iter (fst (update_loss_scale false scenario_a)) =
        cur_iter scenario_a
  end.
Proof.
  split; [exact scenario_a_reachable|].
  apply (cur_iter_incremented_on_return scenario_a false).
  exact scenario_a_reachable.
Defined.

End OneCall.

(** ** The dynamic manager: sequences of calls *)

Section Sequences.

Import DynamicLossScaleManager.

(** C10.  In every state reached from construction through calls that
    returned normally, [0 <= last_overflow_iter < cur_iter]; across any
    further call neither counter decreases, and a call that returns normally
    adds exactly one to [cur_iter]. *)
Theorem iteration_counters_ordered (self : t) :
  reachable_normally self ->
  0 <= last_overflow_iter self < cur_iter self /\
  forall overflow : bool,
    cur_iter self <= cur_iter (fst (update_loss_scale overflow self)) /\
    last_overflow_iter self <=
      last_overflow_iter (fst (update_loss_scale overflow self)) /\
    (snd (update_loss_scale overflow self) = Ok tt ->
     cur_iter (fst (update_loss_scale overflow self)) = cur_iter self + 1).
Proof.
  intros N.
  assert (I : 0 <= last_overflow_iter self < cur_iter self).
  { induction N as [i f w self H | self overflow self' N IH Hcall].
    - apply init_ok_inv in H as (ratio & _ & -> & _). cbn. lia.
    - pose proof (reachable_configured _ (reachable_normally_reachable _ N))
        as C.
      destruct overflow.
      + rewrite (update_loss_scale_true _ C) in Hcall.
        destruct (Py.mul _ _); [|discriminate].
        destruct (bad_step self + 1 >? 1000); [discriminate|].
        injection Hcall as <-. cbn. lia.
      + rewrite (update_loss_scale_false _ C) in Hcall.
        destruct (due self); [destruct (Py.mul _ _); [|discriminate]|];
          injection Hcall as <-; cbn; lia. }
  split; [exact I|].
  pose proof (reachable_configured _ (reachable_normally_reachable _ N)) as C.
  intros overflow. rewrite (update_cur_iter overflow _ C).
  split; [destruct (returns_normally _); lia|]. split.
  - destruct overflow.
    + rewrite (update_loss_scale_true _ C).
      destruct (Py.mul _ _); [|cbn; lia].
      destruct (_ >? _); cbn; lia.
    + rewrite (update_loss_scale_false _ C).
      destruct (due self); [destruct (Py.mul _ _)|]; cbn; lia.
  - intros ->. reflexivity.
Qed.

Lemma iteration_counters_ordered_witness :
  reachable_normally scenario_a /\
  0 <= last_overflow_iter scenario_a < cur_iter scenario_a /\
  forall overflow : bool,
    cur_iter scenario_a <=
      cur_iter (fst (update_loss_scale overflow scenario_a)) /\
    last_overflow_iter scenario_a <=
      last_overflow_iter (fst (update_loss_scale overflow scenario_a)) /\
    (snd (update_loss_scale overflow scenario_a) = Ok tt ->
     cur_iter (fst (update_loss_scale overflow scenario_a)) =
       cur_iter scenario_a + 1).
Proof.
  split; [exact (normally_init _ _ _ _ scenario_a_constructed)|].
  apply (iteration_counters_ordered scenario_a).
  exact (normally_init _ _ _ _ scenario_a_constructed).
Defined.

(** What an overflow call whose product is computed leaves. *)
Lemma overflow_call_fields (self : t) (product : Py.num) :
  configured self ->
  Py.mul (loss_scale self) (decrease_ratio self) = Ok product ->
  loss_scale (fst (update_loss_scale true self)) = Py.max product (Py.Int 1) /\
  last_overflow_iter (fst (update_loss_scale true self)) = cur_iter self /\
  bad_step (fst (update_loss_scale true self)) = bad_step self + 1 /\
  snd (update_loss_scale true self) =
    (if bad_step self + 1 >? 1000
     then Raise (RuntimeError (bad_step self + 1)) else Ok tt) /\
  assigned_by_max (loss_scale (fst (update_loss_scale true self))).
Proof.
  intros C E. rewrite (update_loss_scale_true _ C), E.
  destruct (configured_decrease_float _ C) as [d Hd].
  rewrite Hd in E. destruct (mul_float_r _ _ _ E) as [x ->].
  destruct (bad_step self + 1 >? 1000); cbn;
    repeat split; apply max_assigned_by_max.
Qed.

(** A streak of overflow calls below the ceiling, from an object whose
    first product is computed: every call returns, and [bad_step] counts
    them. *)
Lemma overflow_streak (k : nat) (self : t) (product : Py.num) :
  configured self ->
  Py.mul (loss_scale self) (decrease_ratio self) = Ok product ->
  bad_step self + Z.of_nat k <= 1000 ->
  outcomes (repeat true k) self = repeat (Ok tt) k /\
  bad_step (run (repeat true k) self) = bad_step self + Z.of_nat k /\
  cur_iter (run (repeat true k) self) = cur_iter self + Z.of_nat k /\
  exists product',
    Py.mul (loss_scale (run (repeat true k) self))
           (decrease_ratio (run (repeat true k) self)) = Ok product'.
Proof.
  revert self product. induction k as [|k IH]; intros self product C E Hk.
  - cbn. repeat split; try lia. now exists product.
  - cbn [repeat run outcomes].
    pose proof (update_configured true self C) as C'.
    destruct (overflow_call_fields self product C E)
      as (Hs & Hl & Hb & Ho & Ha).
    destruct (streak_multiplies _ C' Ha) as [p' E'].
    destruct (IH _ p' C' E') as (Ho' & Hb' & Hc' & Hp'); [lia|].
    rewrite Ho', Hb', Hc', Ho, Hb.
    destruct (Z.gtb_spec (bad_step self + 1) 1000) as [H|H]; [lia|].
    rewrite (update_cur_iter true _ C), Ho. cbn [returns_normally].
    destruct (Z.gtb_spec (bad_step self + 1) 1000); [lia|].
    repeat split; try lia. exact Hp'.
Qed.

(** The call after a streak that has brought [bad_step] to the ceiling. *)
Lemma streak_then_raise (k : nat) (self : t) (product : Py.num) :
  configured self ->
  Py.mul (loss_scale self) (decrease_ratio self) = Ok product ->
  bad_step self + Z.of_nat k = 1000 ->
  outcomes (repeat true (S k)) self =
    repeat (Ok tt) k ++ [Raise (RuntimeError 1001)] /\
  (exists last,
     Py.mul (loss_scale (run (repeat true k) self))
            (decrease_ratio (run (repeat true k) self)) = Ok last /\
     loss_scale (run (repeat true (S k)) self) = Py.max last (Py.Int 1)) /\
  last_overflow_iter (run (repeat true (S k)) self) =
    cur_iter (run (repeat true k) self) /\
  bad_step (run (repeat true k) self) = 1000 /\
  bad_step (run (repeat true (S k)) self) = 1001.
Proof.
  intros C E Hk.
  destruct (overflow_streak k self product C E) as (Ho & Hb & _ & last & El);
    [lia|].
  rewrite Hk in Hb.
  pose proof (run_configured (repeat true k) _ C) as C'.
  destruct (overflow_call_fields _ last C' El) as (Hs & Hl & Hbs & Hout & _).
  cbn [repeat]. rewrite repeat_cons, outcomes_app, run_app, Ho.
  cbn [run outcomes]. rewrite Hs, Hl, Hbs, Hout, Hb.
  change (1000 + 1 >? 1000) with true.
  split; [reflexivity|]. split; [now exists last|]. repeat split.
Qed.

(** C4, as stated, fails.  On [DynamicLossScaleManager(2**1024, 2, 1)],
    whose [bad_step] is 0, each of 1001 overflow calls in a row raises
    [OverflowError] and changes nothing: no call raises the [RuntimeError],
    and [bad_step] is still 0 after the last one. *)
Lemma overflow_error_hides_the_streak :
  reachable huge /\
  bad_step huge = 0 /\
  outcomes (repeat true 1001) huge = repeat (Raise OverflowError) 1001 /\
  run (repeat true 1001) huge = huge /\
  nth 1000 (outcomes (repeat true 1001) huge) (Ok tt) <>
    Raise (RuntimeError 1001).
Proof.
  split; [exact huge_reachable|]. split; [reflexivity|].
  assert (E : outcomes (repeat true 1001) huge =
              repeat (Raise OverflowError) 1001) by (vm_compute; reflexivity).
  split; [exact E|]. split; [vm_compute; reflexivity|].
  rewrite E. vm_compute. discriminate.
Qed.

(** C4, amended.  From a reachable state with [bad_step = 0] (the ceiling
    [bad_step_max] being 1000) whose first overflow call returns normally,
    of 1001 overflow calls in a row the first 1000 return normally and the
    1001st raises the [RuntimeError]; the object that call leaves behind
    has its [loss_scale], [last_overflow_iter] and [bad_step] updated for
    that call. *)
Theorem persistent_overflow_raises (self : t) :
  reachable self ->
  bad_step self = 0 ->
  snd (update_loss_scale true self) = Ok tt ->
  bad_step_max self = 1000 /\
  outcomes (repeat true 1001) self =
    repeat (Ok tt) 1000 ++ [Raise (RuntimeError 1001)] /\
  (exists last,
     Py.mul (loss_scale (run (repeat true 1000) self))
            (decrease_ratio (run (repeat true 1000) self)) = Ok last /\
     loss_scale (run (repeat true 1001) self) = Py.max last (Py.Int 1)) /\
  last_overflow_iter (run (repeat true 1001) self) =
    cur_iter (run (repeat true 1000) self) /\
  bad_step (run (repeat true 1000) self) = 1000 /\
  bad_step (run (repeat true 1001) self) = 1001.
Proof.
  intros R H0 Hfirst. pose proof (reachable_configured _ R) as C.
  split; [exact (ceiling_is_1000 _ C)|].
  rewrite (update_loss_scale_true _ C) in Hfirst.
  destruct (Py.mul (loss_scale self) (decrease_ratio self)) as [p|] eqn:E;
    [|discriminate].
  apply (streak_then_raise 1000 self p C E).
  rewrite H0. reflexivity.
Qed.

Lemma persistent_overflow_raises_witness :
  (reachable scenario_a /\ bad_step scenario_a = 0 /\
   snd (update_loss_scale true scenario_a) = Ok tt) /\
  bad_step_max scenario_a = 1000 /\
  outcomes (repeat true 1001) scenario_a =
    repeat (Ok tt) 1000 ++ [Raise (RuntimeError 1001)] /\
  (exists last,
     Py.mul (loss_scale (run (repeat true 1000) scenario_a))
            (decrease_ratio (run (repeat true 1000) scenario_a)) = Ok last /\
     loss_scale (run (repeat true 1001) scenario_a) =
       Py.max last (Py.Int 1)) /\
  last_overflow_iter (run (repeat true 1001) scenario_a) =
    cur_iter (run (repeat true 1000) scenario_a) /\
  bad_step (run (repeat true 1000) scenario_a) = 1000 /\
  bad_step (run (repeat true 1001) scenario_a) = 1001.
Proof.
  split; [split; [exact scenario_a_reachable | split; reflexivity]|].
  apply (persistent_overflow_raises scenario_a).
  - exact scenario_a_reachable.
  - reflexivity.
  - reflexivity.
Defined.

End Sequences.

(** ** The dynamic manager: the floor of the scale *)

Section Scale.

Import DynamicLossScaleManager.

Lemma shrinking_constructed :
  __init__ (Py.Int 1) (Py.Float Binary64.half) 1 = Ok shrinking.
Proof. reflexivity. Qed.

(** C1, as stated, fails.  [DynamicLossScaleManager(1, 0.5, 1)] is accepted
    (the scale is at least 1, the factor positive, the window at least 1);
    its first call, without overflow, returns normally and multiplies the
    scale by the factor: [get_loss_scale()] is then 0.5. *)
Lemma scale_below_one_with_small_factor :
  Py.le (Py.Int 1) (Py.Int 1) = true /\
  Py.lt (Py.Int 0) (Py.Float Binary64.half) = true /\
  1 <= 1 /\
  __init__ (Py.Int 1) (Py.Float Binary64.half) 1 = Ok shrinking /\
  outcomes [false] shrinking = [Ok tt] /\
  get_loss_scale (run [false] shrinking) = Py.Float Binary64.half /\
  Py.le (Py.Int 1) (get_loss_scale (run [false] shrinking)) = false.
Proof. repeat split; first [reflexivity | discriminate]. Qed.

Lemma update_same_configuration (overflow : bool) (self : t) :
  same_configuration self (fst (update_loss_scale overflow self)).
Proof.
  unfold same_configuration. destruct overflow.
  - rewrite update_loss_scale_overflow.
    destruct (Py.mul _ _); [|repeat split].
    destruct (_ >? _); cbn; repeat split.
  - destruct (Z.eq_dec (scale_window self) 0) as [Hw|Hw].
    + rewrite (update_loss_scale_zero_window _ Hw). repeat split.
    + rewrite (update_loss_scale_normal _ Hw).
      destruct (due self); [destruct (Py.mul _ _); [|repeat split]|];
        destruct (_ >? _); cbn; repeat split.
Qed.

Lemma run_same_configuration (overflows : list bool) (self : t) :
  same_configuration self (run overflows self).
Proof.
  revert self. induction overflows as [|b l IH]; intros self; cbn [run].
  - repeat split.
  - destruct (IH (fst (update_loss_scale b self))) as (A1 & A2 & A3 & A4 & A5).
    destruct (update_same_configuration b self) as (B1 & B2 & B3 & B4 & B5).
    repeat split; congruence.
Qed.

(** A product with a float, taken apart. *)
Lemma mul_float_r_inv (a : Py.num) (y : spec_float) (c : Py.num) :
  Py.mul a (Py.Float y) = Ok c ->
  exists x, Py.as_float a = Ok x /\ c = Py.Float (Binary64.mul x y).
Proof.
  assert (G : and_then (Py.as_float a) (fun x =>
              and_then (Py.as_float (Py.Float y)) (fun y' =>
              Ok (Py.Float (Binary64.mul x y')))) = Ok c ->
              exists x, Py.as_float a = Ok x /\
                        c = Py.Float (Binary64.mul x y)).
  { destruct (Py.as_float a) as [x|]; cbn; [|discriminate].
    intros [= <-]. eauto. }
  unfold Py.mul. destruct a; exact G.
Qed.

(** A scale and an increase ratio of at least 1, with a positive decrease
    ratio, are kept by every call, on any object: the floor of the overflow
    branch holds because its product is a number, the growth because
    rounding keeps a product above 1 at least 1. *)
Lemma update_keeps_floor (overflow : bool) (self : t) (d : spec_float) :
  Py.le (Py.Int 1) (loss_scale self) = true ->
  Py.le (Py.Int 1) (increase_ratio self) = true ->
  decrease_ratio self = Py.Float d ->
  Py.lt (Py.Int 0) (Py.Float d) = true ->
  Py.le (Py.Int 1) (loss_scale (fst (update_loss_scale overflow self))) = true.
Proof.
  intros Hs Hr Hd Hpos. destruct overflow.
  - rewrite update_loss_scale_overflow.
    destruct (Py.mul (loss_scale self) (decrease_ratio self)) as [p|] eqn:E;
      [|exact Hs].
    assert (Hp : Py.le (Py.Int 1) (Py.max p (Py.Int 1)) = true).
    { rewrite Hd in E. destruct (mul_float_r_inv _ _ _ E) as (x & Ex & ->).
      apply max_one_at_least_one, compare_one_float.
      apply mul_positive_not_nan.
      - exact (as_float_at_least_one _ _ Hs Ex).
      - exact (lt_zero_float _ Hpos). }
    destruct (_ >? _); exact Hp.
  - destruct (Z.eq_dec (scale_window self) 0) as [Hw|Hw].
    + now rewrite (update_loss_scale_zero_window _ Hw).
    + rewrite (update_loss_scale_normal _ Hw).
      destruct (due self).
      * destruct (Py.mul (loss_scale self) (increase_ratio self)) as [p|] eqn:E;
          [|exact Hs].
        pose proof (py_mul_at_least_one _ _ _ Hs Hr E) as Hp.
        destruct (_ >? _); exact Hp.
      * destruct (_ >? _); exact Hs.
Qed.

Lemma run_keeps_floor (l : list bool) (self : t) (d : spec_float) :
  Py.le (Py.Int 1) (loss_scale self) = true ->
  Py.le (Py.Int 1) (increase_ratio self) = true ->
  decrease_ratio self = Py.Float d ->
  Py.lt (Py.Int 0) (Py.Float d) = true ->
  Py.le (Py.Int 1) (loss_scale (run l self)) = true.
Proof.
  revert self. induction l as [|b l IH]; intros self Hs Hr Hd Hpos;
    cbn [run]; [exact Hs|].
  destruct (update_same_configuration b self) as (_ & _ & E3 & E4 & _).
  apply IH.
  - exact (update_keeps_floor b self d Hs Hr Hd Hpos).
  - now rewrite E3.
  - now rewrite E4.
  - exact Hpos.
Qed.

(** C1, amended.  For every accepted construction whose initial scale and
    scale factor are at least 1 and whose decrease ratio, the float
    [1 / scale_factor], is positive, [get_loss_scale()] is at least 1 after
    every call of every finite sequence of inputs, the calls that raise
    included. *)
Theorem scale_at_least_one
    (i f : Py.num) (w : Z) (self : t) (overflows : list bool) :
  __init__ i f w = Ok self ->
  Py.le (Py.Int 1) i = true ->
  Py.le (Py.Int 1) f = true ->
  Py.lt (Py.Int 0) (decrease_ratio self) = true ->
  Py.le (Py.Int 1) (get_loss_scale (run overflows self)) = true.
Proof.
  intros H Hi Hf Hd.
  destruct (configured_decrease_float _ (init_configured _ _ _ _ H)) as [d Ed].
  apply init_ok_inv in H as (ratio & _ & -> & _).
  cbn [decrease_ratio] in *. subst ratio.
  unfold get_loss_scale. apply (run_keeps_floor overflows _ d); auto.
Qed.

Lemma scale_at_least_one_witness :
  (__init__ (Py.Int 1024) (Py.Int 2) 3 = Ok scenario_a /\
   Py.le (Py.Int 1) (Py.Int 1024) = true /\
   Py.le (Py.Int 1) (Py.Int 2) = true /\
   Py.lt (Py.Int 0) (decrease_ratio scenario_a) = true) /\
  Py.le (Py.Int 1)
        (get_loss_scale (run [false; false; false; true; true] scenario_a))
    = true.
Proof.
  split; [repeat split|].
  apply (scale_at_least_one (Py.Int 1024) (Py.Int 2) 3 scenario_a);
    reflexivity.
Defined.

End Scale.

(** ** The dynamic manager: growth *)

Section Growth.

Import DynamicLossScaleManager.

(** The quotient by the window grows by one exactly at the multiples. *)
Lemma quotient_step (n w : Z) :
  0 <= n -> 1 <= w ->
  (n + 1) / w = if (n + 1) mod w =? 0 then n / w + 1 else n / w.
Proof.
  intros Hn Hw.
  pose proof (Z.div_mod (n + 1) w ltac:(lia)) as E.
  pose proof (Z.mod_pos_bound (n + 1) w ltac:(lia)) as B.
  destruct (Z.eqb_spec ((n + 1) mod w) 0) as [H0|H0].
  - assert (n / w = (n + 1) / w - 1); [|lia].
    symmetry. apply (Z.div_unique n w _ (w - 1)); lia.
  - apply (Z.div_unique n w _ ((n + 1) mod w - 1)); lia.
Qed.

Lemma all_returned_count (l : list (result unit)) :
  l = repeat (Ok tt) (List.length l) ->
  List.length (filter returns_normally l) = List.length l.
Proof.
  intros ->. rewrite repeat_length.
  induction (List.length l) as [|n IH]; cbn; [reflexivity | now rewrite IH].
Qed.

Lemma outcomes_length (overflows : list bool) (self : t) :
  List.length (outcomes overflows self) = List.length overflows.
Proof.
  revert self. induction overflows as [|b l IH]; intros self; cbn;
    [reflexivity | now rewrite IH].
Qed.

Lemma run_cur_iter (overflows : list bool) (self : t) :
  configured self ->
  cur_iter (run overflows self) =
  cur_iter self +
  Z.of_nat (List.length (filter returns_normally (outcomes overflows self))).
Proof.
  revert self. induction overflows as [|b l IH]; intros self C.
  - cbn. lia.
  - cbn [run outcomes filter].
    rewrite (IH _ (update_configured b _ C)), (update_cur_iter b _ C).
    destruct (returns_normally _); cbn [List.length]; lia.
Qed.

(** Calls without overflow never move the anchor of the window. *)
Lemma normal_calls_keep_anchor (n : nat) (self : t) :
  configured self ->
  last_overflow_iter (run (repeat false n) self) = last_overflow_iter self.
Proof.
  revert self. induction n as [|n IH]; intros self C; cbn [repeat run].
  - reflexivity.
  - rewrite (IH _ (update_configured false _ C)).
    rewrite (update_loss_scale_false _ C).
    destruct (due self); [destruct (Py.mul _ _)|]; reflexivity.
Qed.

(** Whether the window is due after [n] calls without overflow that all
    returned. *)
Lemma due_after_normal_calls (n : nat) (self : t) :
  configured self ->
  outcomes (repeat false n) self = repeat (Ok tt) n ->
  due (run (repeat false n) self) =
  ((cur_iter self - last_overflow_iter self + Z.of_nat n) mod scale_window self
   =? 0).
Proof.
  intros C Ho. unfold due.
  rewrite (run_cur_iter _ _ C), (normal_calls_keep_anchor n _ C), Ho.
  rewrite all_returned_count by (now rewrite repeat_length).
  rewrite repeat_length.
  destruct (run_same_configuration (repeat false n) self) as (-> & _).
  do 2 f_equal. lia.
Qed.

(** One more call without overflow after [n] that returned. *)
Lemma one_more_normal_call (n : nat) (self : t) :
  configured self ->
  outcomes (repeat false n) self = repeat (Ok tt) n ->
  if (cur_iter self - last_overflow_iter self + Z.of_nat n)
       mod scale_window self =? 0
  then match Py.mul (loss_scale (run (repeat false n) self))
                    (scale_factor self) with
       | Ok product =>
           outcomes (repeat false (S n)) self = repeat (Ok tt) (S n) /\
           loss_scale (run (repeat false (S n)) self) = product
       | Raise e =>
           outcomes (repeat false (S n)) self =
             repeat (Ok tt) n ++ [Raise OverflowError] /\
           run (repeat false (S n)) self = run (repeat false n) self
       end
  else outcomes (repeat false (S n)) self = repeat (Ok tt) (S n) /\
       loss_scale (run (repeat false (S n)) self) =
         loss_scale (run (repeat false n) self).
Proof.
  intros C Ho.
  pose proof (due_after_normal_calls n self C Ho) as Hdue.
  pose proof (run_configured (repeat false n) _ C) as Cn.
  assert (E : repeat false (S n) = repeat false n ++ [false])
    by (cbn [repeat]; apply repeat_cons).
  assert (E' : repeat (@Ok unit tt) (S n) = repeat (Ok tt) n ++ [Ok tt])
    by (cbn [repeat]; apply repeat_cons).
  rewrite E, E', outcomes_app, run_app, Ho. cbn [run outcomes].
  rewrite (update_loss_scale_false _ Cn), Hdue.
  destruct (run_same_configuration (repeat false n) self)
    as (_ & _ & -> & _).
  rewrite (increase_is_factor _ C).
  destruct (_ =? 0).
  - destruct (Py.mul (loss_scale (run (repeat false n) self))
                     (scale_factor self)) as [p|e] eqn:Em.
    + split; reflexivity.
    + rewrite (mul_raises _ _ _ Em). split; reflexivity.
  - split; reflexivity.
Qed.

Lemma huge_factor_constructed :
  __init__ (Py.Float Binary64.one) (Py.Int (2 ^ 1024)) 1 = Ok huge_factor.
Proof. vm_compute. reflexivity. Qed.

(** C3, as stated, fails.  On [DynamicLossScaleManager(1.0, 2**1024, 1)]
    the window is due at every call, but the integer factor is too large to
    convert to float: each call without overflow raises [OverflowError],
    and after three calls the scale is still 1.0, multiplied not once. *)
Lemma growth_raises_with_huge_factor :
  __init__ (Py.Float Binary64.one) (Py.Int (2 ^ 1024)) 1 = Ok huge_factor /\
  Z.of_nat 3 / scale_window huge_factor = 3 /\
  outcomes (repeat false 3) huge_factor = repeat (Raise OverflowError) 3 /\
  loss_scale (run (repeat false 3) huge_factor) = Py.Float Binary64.one /\
  Py.mul (Py.Float Binary64.one) (scale_factor huge_factor) =
    Raise OverflowError.
Proof.
  split; [exact huge_factor_constructed|].
  repeat split; vm_compute; reflexivity.
Qed.

(** With an integer scale and an integer factor the products are exact. *)
Lemma integer_growth (i f w : Z) (self : t) (n : nat) :
  __init__ (Py.Int i) (Py.Int f) w = Ok self ->
  outcomes (repeat false n) self = repeat (Ok tt) n /\
  loss_scale (run (repeat false n) self) =
    Py.Int (i * f ^ (Z.of_nat n / w)).
Proof.
  intros H. pose proof (init_configured _ _ _ _ H) as C.
  apply init_ok_inv in H as (ratio & _ & E & _ & _ & Hw).
  induction n as [|n [Ho Hs]].
  - cbn [repeat run outcomes]. split; [reflexivity|].
    rewrite E. cbn [loss_scale Z.of_nat]. rewrite Zdiv_0_l.
    f_equal. rewrite Z.pow_0_r. lia.
  - pose proof (one_more_normal_call n self C Ho) as Hstep.
    rewrite Hs in Hstep.
    assert (Ec : cur_iter self - last_overflow_iter self + Z.of_nat n =
                 Z.of_nat n + 1)
      by (rewrite E; cbn [cur_iter last_overflow_iter]; lia).
    assert (Ew : scale_window self = w) by (rewrite E; reflexivity).
    assert (Ef : scale_factor self = Py.Int f) by (rewrite E; reflexivity).
    rewrite Ec, Ew, Ef in Hstep. cbn [Py.mul] in Hstep.
    rewrite Nat2Z.inj_succ. unfold Z.succ.
    rewrite (quotient_step (Z.of_nat n) w) by lia.
    destruct ((Z.of_nat n + 1) mod w =? 0); destruct Hstep as [Ho' Hs'];
      split; try exact Ho'; rewrite Hs'; [|reflexivity].
    f_equal. rewrite Z.pow_add_r, Z.pow_1_r by
      (try lia; apply Z.div_pos; lia). lia.
Qed.

(** C3, amended.  On a new manager that is never told of an overflow, as
    long as the calls so far returned normally, the call number [n + 1]
    multiplies the scale by the factor (Python's [*]) when [scale_window]
    divides [n + 1] and leaves it as it is otherwise; when the product
    raises, it raises [OverflowError], the call raises it and the object is
    left as it was.  With an integer initial scale and an integer factor
    every call returns normally and after [n] calls the scale is the
    integer [init * factor ^ (n / scale_window)] (floor division).  With
    [DynamicLossScaleManager(1024, 2, 3)], three calls without overflow
    give 2048, and an overflow call after them gives 1024.0 and sets
    [last_overflow_iter] to the value of [cur_iter] at that call, 4. *)
Theorem growth_cadence :
  (forall (i f : Py.num) (w : Z) (self : t),
     __init__ i f w = Ok self ->
     forall n : nat,
       outcomes (repeat false n) self = repeat (Ok tt) n ->
       if Z.of_nat (S n) mod w =? 0
       then match Py.mul (loss_scale (run (repeat false n) self)) f with
            | Ok product =>
                outcomes (repeat false (S n)) self = repeat (Ok tt) (S n) /\
                loss_scale (run (repeat false (S n)) self) = product
            | Raise e =>
                outcomes (repeat false (S n)) self =
                  repeat (Ok tt) n ++ [Raise OverflowError] /\
                run (repeat false (S n)) self = run (repeat false n) self
            end
       else outcomes (repeat false (S n)) self = repeat (Ok tt) (S n) /\
            loss_scale (run (repeat false (S n)) self) =
              loss_scale (run (repeat false n) self)) /\
  (forall (i f w : Z) (self : t),
     __init__ (Py.Int i) (Py.Int f) w = Ok self ->
     forall n : nat,
       outcomes (repeat false n) self = repeat (Ok tt) n /\
       loss_scale (run (repeat false n) self) =
         Py.Int (i * f ^ (Z.of_nat n / w))) /\
  (__init__ (Py.Int 1024) (Py.Int 2) 3 = Ok scenario_a /\
   get_loss_scale (run [false; false; false] scenario_a) = Py.Int 2048 /\
   get_loss_scale (run [false; false; false; true] scenario_a) =
     Py.Float Binary64.f1024 /\
   cur_iter (run [false; false; false] scenario_a) = 4 /\
   last_overflow_iter (run [false; false; false; true] scenario_a) = 4).
Proof.
  split; [|split].
  - intros i f w self H n Ho.
    pose proof (one_more_normal_call n self (init_configured _ _ _ _ H) Ho)
      as Hstep.
    apply init_ok_inv in H as (ratio & _ & -> & _).
    cbn [cur_iter last_overflow_iter scale_window scale_factor] in Hstep.
    replace (1 - 0 + Z.of_nat n) with (Z.of_nat (S n)) in Hstep by lia.
    exact Hstep.
  - intros i f w self H n. exact (integer_growth i f w self n H).
  - repeat split; vm_compute; reflexivity.
Qed.

Lemma growth_cadence_witness :
  (__init__ (Py.Int 1024) (Py.Int 2) 3 = Ok scenario_a /\
   outcomes (repeat false 8) scenario_a = repeat (Ok tt) 8) /\
  (if Z.of_nat 9 mod 3 =? 0
   then match Py.mul (loss_scale (run (repeat false 8) scenario_a))
                     (Py.Int 2) with
        | Ok product =>
            outcomes (repeat false 9) scenario_a = repeat (Ok tt) 9 /\
            loss_scale (run (repeat false 9) scenario_a) = product
        | Raise e =>
            outcomes (repeat false 9) scenario_a =
              repeat (Ok tt) 8 ++ [Raise OverflowError] /\
            run (repeat false 9) scenario_a = run (repeat false 8) scenario_a
        end
   else outcomes (repeat false 9) scenario_a = repeat (Ok tt) 9 /\
        loss_scale (run (repeat false 9) scenario_a) =
          loss_scale (run (repeat false 8) scenario_a)) /\
  (outcomes (repeat false 7) scenario_a = repeat (Ok tt) 7 /\
   loss_scale (run (repeat false 7) scenario_a) =
     Py.Int (1024 * 2 ^ (Z.of_nat 7 / 3))).
Proof.
  split; [split; reflexivity|]. split.
  - apply (proj1 growth_cadence (Py.Int 1024) (Py.Int 2) 3 scenario_a);
      reflexivity.
  - apply (proj1 (proj2 growth_cadence) 1024 2 3 scenario_a). reflexivity.
Defined.

End Growth.

(** ** Construction *)

Section Construction.

(** C7.  Both constructors raise a [ValueError] and build no object when the
    scale is below 1; the dynamic one also when the scale factor is at most
    0 or when the window is below 1 (for the window, through
    [check_positive_int]).  For all other arguments the object is built. *)
Theorem construction_validates :
  (forall (loss_scale : Py.num) (drop : bool),
     Py.lt loss_scale (Py.Int 1) = true ->
     FixedLossScaleManager.__init__ loss_scale drop =
       Raise (ValueError "loss_scale")) /\
  (forall (loss_scale : Py.num) (drop : bool),
     Py.le (Py.Int 1) loss_scale = true ->
     FixedLossScaleManager.__init__ loss_scale drop =
       Ok (FixedLossScaleManager.mk loss_scale drop)) /\
  (forall (i f : Py.num) (w : Z),
     Py.lt i (Py.Int 1) = true \/ Py.le f (Py.Int 0) = true \/ w < 1 ->
     exists arg_name : string,
       DynamicLossScaleManager.__init__ i f w = Raise (ValueError arg_name)) /\
  (forall (i f : Py.num) (w : Z),
     Py.le (Py.Int 1) i = true -> Py.lt (Py.Int 0) f = true -> 1 <= w ->
     exists ratio : Py.num,
       Py.truediv (Py.Int 1) f = Ok ratio /\
       DynamicLossScaleManager.__init__ i f w =
         Ok (DynamicLossScaleManager.mk i w f f ratio 1 0 1000 0)).
Proof.
  split; [|split; [|split]].
  - intros ls d H. unfold FixedLossScaleManager.__init__. now rewrite H.
  - intros ls d H. unfold FixedLossScaleManager.__init__.
    now rewrite (le_not_lt _ _ H).
  - intros i f w H.
    unfold DynamicLossScaleManager.__init__, Validator.check_positive_int.
    rewrite lt_float_one.
    destruct (Py.lt i (Py.Int 1)) eqn:Ei; [eexists; reflexivity|].
    destruct (Z.ltb_spec w 1) as [Hw|Hw]; [eexists; reflexivity|].
    destruct (Py.le f (Py.Int 0)) eqn:Ef; [eexists; reflexivity|].
    exfalso. destruct H as [H|[H|H]]; [discriminate | discriminate | lia].
  - intros i f w Hi Hf Hw.
    unfold DynamicLossScaleManager.__init__, Validator.check_positive_int.
    rewrite lt_float_one, (le_not_lt _ _ Hi).
    destruct (Z.ltb_spec w 1); [lia|].
    pose proof (lt_not_le _ _ Hf) as Hf'. rewrite Hf'.
    destruct (truediv_one_ok f Hf') as [ratio Er]. rewrite Er.
    exists ratio. split; reflexivity.
Qed.

Lemma construction_validates_witness :
  FixedLossScaleManager.__init__ (Py.Float Binary64.half) true =
    Raise (ValueError "loss_scale") /\
  FixedLossScaleManager.__init__ (Py.Float Binary64.f128) true =
    Ok (FixedLossScaleManager.mk (Py.Float Binary64.f128) true) /\
  (exists arg_name : string,
     DynamicLossScaleManager.__init__ (Py.Int 1024) (Py.Int 0) 3 =
       Raise (ValueError arg_name)) /\
  (exists ratio : Py.num,
     Py.truediv (Py.Int 1) (Py.Int 2) = Ok ratio /\
     DynamicLossScaleManager.__init__ (Py.Int 1024) (Py.Int 2) 3 =
       Ok (DynamicLossScaleManager.mk (Py.Int 1024) 3 (Py.Int 2) (Py.Int 2)
             ratio 1 0 1000 0)).
Proof.
  destruct construction_validates as (Hlow & Hfixed & Hbad & Hdyn).
  split; [apply Hlow; reflexivity|].
  split; [apply Hfixed; reflexivity|].
  split; [apply Hbad; right; left; reflexivity|].
  apply Hdyn; [reflexivity | reflexivity | lia].
Defined.

End Construction.

(** ** The fixed manager *)

Section Fixed.

Import FixedLossScaleManager.

Lemma fixed_run_id (overflows : list bool) (self : t) :
  run overflows self = self.
Proof.
  induction overflows as [|b l IH]; cbn; [reflexivity | exact IH].
Qed.

Lemma fixed_outcomes (overflows : list bool) (self : t) :
  outcomes overflows self = repeat (Ok tt) (List.length overflows).
Proof.
  revert self. induction overflows as [|b l IH]; intros self; cbn.
  - reflexivity.
  - f_equal. apply IH.
Qed.

Lemma fixed_init_inv (loss_scale : Py.num) (drop : bool) (self : t) :
  __init__ loss_scale drop = Ok self ->
  self = mk loss_scale drop /\ Py.lt loss_scale (Py.Int 1) = false.
Proof.
  unfold __init__. destruct (Py.lt loss_scale (Py.Int 1)) eqn:E;
    [discriminate|].
  intros [= <-]. split; reflexivity.
Qed.

(** C8.  On a fixed manager every [update_loss_scale] call of any sequence
    returns normally and leaves the object as it was: [get_loss_scale()] is
    the configured scale and [get_drop_overflow_update()] the configured
    flag after any sequence of calls. *)
Theorem fixed_update_is_noop
    (loss_scale : Py.num) (drop : bool) (self : t) (overflows : list bool) :
  __init__ loss_scale drop = Ok self ->
  outcomes overflows self = repeat (Ok tt) (List.length overflows) /\
  run overflows self = self /\
  get_loss_scale (run overflows self) = loss_scale /\
  get_drop_overflow_update (run overflows self) = drop.
Proof.
  intros H. apply fixed_init_inv in H as [-> _].
  rewrite fixed_run_id, fixed_outcomes. repeat split.
Qed.

Lemma fixed_update_is_noop_witness :
  __init__ (Py.Float Binary64.f128) true = Ok scenario_c /\
  outcomes [true; false; true] scenario_c =
    repeat (Ok tt) (List.length [true; false; true]) /\
  run [true; false; true] scenario_c = scenario_c /\
  get_loss_scale (run [true; false; true] scenario_c) =
    Py.Float Binary64.f128 /\
  get_drop_overflow_update (run [true; false; true] scenario_c) = true.
Proof.
  split; [reflexivity|].
  apply (fixed_update_is_noop (Py.Float Binary64.f128) true scenario_c
           [true; false; true]).
  reflexivity.
Defined.

(** C9.  On a fixed manager, after any sequence of calls,
    [get_update_cell()] is [None] exactly when [drop_overflow_update] is
    [False], and is the cell built from the fixed scale when it is [True]. *)
Theorem fixed_update_cell
    (loss_scale : Py.num) (drop : bool) (self : t) (overflows : list bool) :
  __init__ loss_scale drop = Ok self ->
  (get_update_cell (run overflows self) = None <-> drop = false) /\
  get_update_cell (run overflows self) =
    if drop then Some (nn.FixedLossScaleUpdateCell loss_scale) else None.
Proof.
  intros H. apply fixed_init_inv in H as [-> _].
  rewrite fixed_run_id. unfold get_update_cell; cbn.
  destruct drop; cbn; split; try reflexivity; split; congruence.
Qed.

Lemma fixed_update_cell_witness :
  (__init__ (Py.Float Binary64.f128) true = Ok scenario_c /\
   (get_update_cell (run [true] scenario_c) = None <-> true = false) /\
   get_update_cell (run [true] scenario_c) =
     Some (nn.FixedLossScaleUpdateCell (Py.Float Binary64.f128))) /\
  (__init__ (Py.Float Binary64.f128) false = Ok scenario_c_keep /\
   (get_update_cell (run [true] scenario_c_keep) = None <-> false = false) /\
   get_update_cell (run [true] scenario_c_keep) = None).
Proof.
  split.
  - split; [reflexivity|].
    apply (fixed_update_cell (Py.Float Binary64.f128) true scenario_c [true]).
    reflexivity.
  - split; [reflexivity|].
    apply (fixed_update_cell (Py.Float Binary64.f128) false scenario_c_keep
             [true]).
    reflexivity.
Defined.

End Fixed.

(** * Further properties of the dynamic manager *)

(** ** Descriptor and counters *)

Section Counters.

Import DynamicLossScaleManager.

(** X1.  After any sequence of calls on a constructed manager,
    [get_update_cell()] is built from the current scale and from the factor
    and the window given at construction, and
    [get_drop_overflow_update()] is [True]. *)
Theorem update_cell_after_calls
    (i f : Py.num) (w : Z) (self : t) (overflows : list bool) :
  __init__ i f w = Ok self ->
  get_update_cell (run overflows self) =
    nn.DynamicLossScaleUpdateCell (get_loss_scale (run overflows self)) f w /\
  get_drop_overflow_update (run overflows self) = true.
Proof.
  intros H. apply init_ok_inv in H as (ratio & _ & -> & _).
  destruct (run_same_configuration overflows (mk i w f f ratio 1 0 1000 0))
    as (Hw & Hf & _).
  unfold get_update_cell, get_loss_scale. rewrite Hw, Hf. split; reflexivity.
Qed.

Lemma update_cell_after_calls_witness :
  __init__ (Py.Int 1024) (Py.Int 2) 3 = Ok scenario_a /\
  get_update_cell (run [false; false; false; true] scenario_a) =
    nn.DynamicLossScaleUpdateCell
      (get_loss_scale (run [false; false; false; true] scenario_a))
      (Py.Int 2) 3 /\
  get_drop_overflow_update (run [false; false; false; true] scenario_a) = true.
Proof.
  split; [reflexivity|].
  apply (update_cell_after_calls (Py.Int 1024) (Py.Int 2) 3 scenario_a).
  reflexivity.
Defined.

(** X3.  In every state reached through calls that returned normally, the
    overflow counter is between 0 and the ceiling of 1000. *)
Theorem bad_step_within_ceiling (self : t) :
  reachable_normally self -> 0 <= bad_step self <= 1000.
Proof.
  induction 1 as [i f w self H | self overflow self' N IH Hcall].
  - apply init_ok_inv in H as (ratio & _ & -> & _). cbn. lia.
  - pose proof (reachable_configured _ (reachable_normally_reachable _ N)) as C.
    destruct overflow.
    + rewrite (update_loss_scale_true _ C) in Hcall.
      destruct (Py.mul _ _); [|discriminate].
      destruct (Z.gtb_spec (bad_step self + 1) 1000); [discriminate|].
      injection Hcall as <-. cbn. lia.
    + rewrite (update_loss_scale_false _ C) in Hcall.
      destruct (due self); [destruct (Py.mul _ _); [|discriminate]|];
        injection Hcall as <-; cbn; lia.
Qed.

Lemma scenario_a_overflowed_normally :
  reachable_normally (fst (update_loss_scale true scenario_a)).
Proof.
  apply (normally_call scenario_a true).
  - exact (normally_init _ _ _ _ scenario_a_constructed).
  - reflexivity.
Qed.

Lemma bad_step_within_ceiling_witness :
  reachable_normally (fst (update_loss_scale true scenario_a)) /\
  0 <= bad_step (fst (update_loss_scale true scenario_a)) <= 1000.
Proof.
  split; [exact scenario_a_overflowed_normally|].
  apply (bad_step_within_ceiling (fst (update_loss_scale true scenario_a))).
  exact scenario_a_overflowed_normally.
Defined.

(** X4.  On a constructed manager, after any sequence of calls, [cur_iter]
    is one more than the number of calls that returned normally: the calls
    that raised are not counted. *)
Theorem cur_iter_counts_returns
    (i f : Py.num) (w : Z) (self : t) (overflows : list bool) :
  __init__ i f w = Ok self ->
  cur_iter (run overflows self) =
  1 + Z.of_nat (List.length (filter returns_normally (outcomes overflows self))).
Proof.
  intros H. rewrite (run_cur_iter _ _ (init_configured _ _ _ _ H)).
  apply init_ok_inv in H as (ratio & _ & -> & _). reflexivity.
Qed.

Lemma cur_iter_counts_returns_witness :
  __init__ (Py.Int 2) (Py.Int 2) 1 = Ok scenario_b /\
  cur_iter (run (repeat true 1003) scenario_b) =
  1 + Z.of_nat (List.length (filter returns_normally
                               (outcomes (repeat true 1003) scenario_b))).
Proof.
  split; [reflexivity|].
  apply (cur_iter_counts_returns (Py.Int 2) (Py.Int 2) 1 scenario_b).
  reflexivity.
Defined.

(** X14.  What a raising call does.  In every reachable state a call can
    raise only the [OverflowError] of its product, and then the object is
    left as it was, or, on an overflow input, the [RuntimeError] carrying
    the new [bad_step], which is above the ceiling. *)
Theorem raising_call_effects (self : t) (overflow : bool) (e : exn) :
  reachable self ->
  snd (update_loss_scale overflow self) = Raise e ->
  (e = OverflowError /\ fst (update_loss_scale overflow self) = self) \/
  (e = RuntimeError (bad_step self + 1) /\ overflow = true /\
   1000 < bad_step self + 1 /\
   bad_step (fst (update_loss_scale overflow self)) = bad_step self + 1).
Proof.
  intros R. pose proof (reachable_configured _ R) as C.
  destruct overflow.
  - rewrite (update_loss_scale_true _ C).
    destruct (Py.mul _ _) as [p|e'] eqn:E.
    + destruct (Z.gtb_spec (bad_step self + 1) 1000); cbn; [|discriminate].
      intros [= <-]. right. repeat split. assumption.
    + cbn. intros [= <-]. left. split; [exact (mul_raises _ _ _ E)|reflexivity].
  - rewrite (update_loss_scale_false _ C).
    destruct (due self); [|discriminate].
    destruct (Py.mul _ _) as [p|e'] eqn:E; [discriminate|].
    cbn. intros [= <-]. left. split; [exact (mul_raises _ _ _ E)|reflexivity].
Qed.

Lemma raising_call_effects_witness :
  (reachable huge /\ snd (update_loss_scale true huge) = Raise OverflowError) /\
  ((OverflowError = OverflowError /\ fst (update_loss_scale true huge) = huge) \/
   (OverflowError = RuntimeError (bad_step huge + 1) /\ true = true /\
    1000 < bad_step huge + 1 /\
    bad_step (fst (update_loss_scale true huge)) = bad_step huge + 1)).
Proof.
  split; [split; [exact huge_reachable | vm_compute; reflexivity]|].
  apply (raising_call_effects huge true OverflowError).
  - exact huge_reachable.
  - vm_compute; reflexivity.
Defined.

End Counters.

(** ** Streaks, the calls after the error, and the anchor of the window *)

Section Streaks.

Import DynamicLossScaleManager.

Lemma streak_bad_step (k : nat) (self : t) :
  configured self ->
  assigned_by_max (loss_scale self) ->
  bad_step (run (repeat true k) self) = bad_step self + Z.of_nat k.
Proof.
  revert self. induction k as [|k IH]; intros self C A; cbn [repeat run].
  - lia.
  - destruct (streak_multiplies _ C A) as [p E].
    destruct (overflow_call_fields self p C E) as (_ & _ & Hb & _ & A').
    rewrite (IH _ (update_configured true _ C) A'), Hb. lia.
Qed.

(** X5.  Inside a streak, that is from a reachable state with
    [bad_step > 0], [k] further overflow calls add exactly [k] to
    [bad_step], whether they return or raise: the counter goes on past the
    ceiling. *)
Theorem bad_step_counts_streak (self : t) (k : nat) :
  reachable self ->
  0 < bad_step self ->
  bad_step (run (repeat true k) self) = bad_step self + Z.of_nat k.
Proof.
  intros R Hb. pose proof (reachable_configured _ R) as C.
  exact (streak_bad_step k self C (streak_scale_shape _ C Hb)).
Qed.

Lemma scenario_b_at_ceiling_bad_step : bad_step scenario_b_at_ceiling = 1000.
Proof. vm_compute. reflexivity. Qed.

Lemma bad_step_counts_streak_witness :
  (reachable scenario_b_at_ceiling /\ 0 < bad_step scenario_b_at_ceiling) /\
  bad_step (run (repeat true 5) scenario_b_at_ceiling) =
    bad_step scenario_b_at_ceiling + Z.of_nat 5.
Proof.
  split.
  - split; [exact scenario_b_at_ceiling_reachable|].
    rewrite scenario_b_at_ceiling_bad_step. lia.
  - apply (bad_step_counts_streak scenario_b_at_ceiling 5).
    + exact scenario_b_at_ceiling_reachable.
    + rewrite scenario_b_at_ceiling_bad_step. lia.
Defined.

(** X6.  Once [bad_step] has reached the ceiling, every further overflow
    call raises the [RuntimeError], with the count of the streak so far, and
    [cur_iter] stays where it was. *)
Theorem overflow_keeps_raising (self : t) (k : nat) :
  reachable self ->
  1000 <= bad_step self ->
  outcomes (repeat true k) self =
    map (fun j => Raise (RuntimeError (bad_step self + Z.of_nat j))) (seq 1 k) /\
  cur_iter (run (repeat true k) self) = cur_iter self.
Proof.
  intros R. revert self R. induction k as [|k IH]; intros self R Hb.
  - cbn. split; reflexivity.
  - pose proof (reachable_configured _ R) as C.
    destruct (streak_multiplies _ C (streak_scale_shape _ C ltac:(lia)))
      as [p E].
    destruct (overflow_call_fields self p C E) as (_ & _ & Hbs & Hout & _).
    destruct (IH _ (reachable_call self true R)) as [Ho Hc]; [lia|].
    cbn [repeat run outcomes seq map]. rewrite Ho, Hc, Hbs, Hout.
    rewrite (update_cur_iter true _ C), Hout.
    destruct (Z.gtb_spec (bad_step self + 1) 1000); [|lia].
    cbn [returns_normally].
    split; [|lia]. f_equal.
    rewrite <- (seq_shift k 1), map_map. apply map_ext. intros j.
    do 2 f_equal. lia.
Qed.

Lemma overflow_keeps_raising_witness :
  (reachable scenario_b_at_ceiling /\ 1000 <= bad_step scenario_b_at_ceiling) /\
  outcomes (repeat true 3) scenario_b_at_ceiling =
    map (fun j => Raise (RuntimeError
                           (bad_step scenario_b_at_ceiling + Z.of_nat j)))
        (seq 1 3) /\
  cur_iter (run (repeat true 3) scenario_b_at_ceiling) =
    cur_iter scenario_b_at_ceiling.
Proof.
  split.
  - split; [exact scenario_b_at_ceiling_reachable|].
    rewrite scenario_b_at_ceiling_bad_step. lia.
  - apply (overflow_keeps_raising scenario_b_at_ceiling 3).
    + exact scenario_b_at_ceiling_reachable.
    + rewrite scenario_b_at_ceiling_bad_step. lia.
Defined.

(** X7.  The call after the error.  When an overflow call has raised the
    [RuntimeError], the window is anchored at the step that did not advance:
    a call without overflow made next finds the window due whatever
    [scale_window] is.  When its product is computed it returns normally
    with the scale multiplied by the factor, [bad_step] cleared and
    [cur_iter] advanced; when the product raises, so does the call, and
    nothing changes. *)
Theorem growth_right_after_error (self : t) (n : Z) :
  reachable self ->
  snd (update_loss_scale true self) = Raise (RuntimeError n) ->
  due (run [true] self) = true /\
  match Py.mul (loss_scale (run [true] self)) (scale_factor self) with
  | Ok product =>
      snd (update_loss_scale false (run [true] self)) = Ok tt /\
      loss_scale (run [true; false] self) = product /\
      bad_step (run [true; false] self) = 0 /\
      cur_iter (run [true; false] self) = cur_iter self + 1
  | Raise e =>
      snd (update_loss_scale false (run [true] self)) = Raise e /\
      run [true; false] self = run [true] self
  end.
Proof.
  intros R He. pose proof (reachable_configured _ R) as C.
  pose proof (update_configured true _ C) as C'.
  cbn [run]. rewrite (update_loss_scale_false _ C').
  destruct (update_same_configuration true self) as (_ & _ & E3 & _).
  rewrite E3, (increase_is_factor _ C).
  assert (Hdue : due (fst (update_loss_scale true self)) = true).
  { rewrite (update_loss_scale_true _ C) in *.
    destruct (Py.mul (loss_scale self) (decrease_ratio self)) as [p|e'] eqn:E.
    - destruct (_ >? _); [|discriminate].
      unfold due; cbn [fst after_overflow cur_iter last_overflow_iter
                       scale_window].
      rewrite Z.sub_diag, Z.mod_0_l by (pose proof (window_positive _ C); lia).
      reflexivity.
    - cbn in He. injection He as ->.
      pose proof (mul_raises _ _ _ E). discriminate. }
  rewrite Hdue. split; [reflexivity|].
  assert (Hcur : cur_iter (fst (update_loss_scale true self)) = cur_iter self).
  { rewrite (update_cur_iter true _ C), He. cbn. lia. }
  destruct (Py.mul (loss_scale (fst (update_loss_scale true self)))
                   (scale_factor self)); cbn; repeat split.
  exact (f_equal (fun c => c + 1) Hcur).
Qed.

Lemma growth_right_after_error_witness :
  (reachable scenario_b_at_ceiling /\
   snd (update_loss_scale true scenario_b_at_ceiling) =
     Raise (RuntimeError 1001)) /\
  due (run [true] scenario_b_at_ceiling) = true /\
  match Py.mul (loss_scale (run [true] scenario_b_at_ceiling))
               (scale_factor scenario_b_at_ceiling) with
  | Ok product =>
      snd (update_loss_scale false (run [true] scenario_b_at_ceiling)) =
        Ok tt /\
      loss_scale (run [true; false] scenario_b_at_ceiling) = product /\
      bad_step (run [true; false] scenario_b_at_ceiling) = 0 /\
      cur_iter (run [true; false] scenario_b_at_ceiling) =
        cur_iter scenario_b_at_ceiling + 1
  | Raise e =>
      snd (update_loss_scale false (run [true] scenario_b_at_ceiling)) =
        Raise e /\
      run [true; false] scenario_b_at_ceiling =
        run [true] scenario_b_at_ceiling
  end.
Proof.
  split.
  - split; [exact scenario_b_at_ceiling_reachable | vm_compute; reflexivity].
  - apply (growth_right_after_error scenario_b_at_ceiling 1001).
    + exact scenario_b_at_ceiling_reachable.
    + vm_compute; reflexivity.
Defined.

(** X8.  [last_overflow_iter] is the position of the last overflow in the
    history: on a constructed manager, when the calls before the last
    overflow call all returned normally and that call did not raise
    [OverflowError], it is the 1-based number of that call, through any
    number of calls without overflow after it. *)
Theorem last_overflow_iter_is_position
    (i f : Py.num) (w : Z) (self : t) (before : list bool) (n : nat) :
  __init__ i f w = Ok self ->
  outcomes before self = repeat (Ok tt) (List.length before) ->
  snd (update_loss_scale true (run before self)) <> Raise OverflowError ->
  last_overflow_iter (run (before ++ true :: repeat false n) self) =
    Z.of_nat (List.length before) + 1.
Proof.
  intros H Ho Hno. pose proof (init_configured _ _ _ _ H) as C.
  pose proof (run_configured before _ C) as Cb.
  rewrite run_app. cbn [run].
  rewrite (normal_calls_keep_anchor n _ (update_configured true _ Cb)).
  rewrite (update_loss_scale_true _ Cb) in *.
  destruct (Py.mul (loss_scale (run before self))
                   (decrease_ratio (run before self))) as [p|e] eqn:E.
  - assert (Hl : last_overflow_iter
                   (fst (if bad_step (run before self) + 1 >? 1000
                         then (after_overflow p (run before self),
                               Raise (RuntimeError
                                        (bad_step (run before self) + 1)))
                         else (set_cur_iter (cur_iter (run before self) + 1)
                                 (after_overflow p (run before self)),
                               @Ok unit tt))) = cur_iter (run before self))
      by (destruct (_ >? _); reflexivity).
    rewrite Hl, (run_cur_iter _ _ C), all_returned_count, outcomes_length.
    + apply init_ok_inv in H as (ratio & _ & -> & _). cbn [cur_iter]. lia.
    + rewrite outcomes_length. exact Ho.
  - exfalso. apply Hno. cbn. now rewrite (mul_raises _ _ _ E).
Qed.

Lemma last_overflow_iter_is_position_witness :
  (__init__ (Py.Int 1024) (Py.Int 2) 3 = Ok scenario_a /\
   outcomes [false; true; false] scenario_a =
     repeat (Ok tt) (List.length [false; true; false]) /\
   snd (update_loss_scale true (run [false; true; false] scenario_a)) <>
     Raise OverflowError) /\
  last_overflow_iter
    (run ([false; true; false] ++ true :: repeat false 5) scenario_a) =
    Z.of_nat (List.length [false; true; false]) + 1.
Proof.
  split; [split; [reflexivity | split; [reflexivity | discriminate]]|].
  apply (last_overflow_iter_is_position (Py.Int 1024) (Py.Int 2) 3 scenario_a);
    [reflexivity | reflexivity | discriminate].
Defined.

(** Calls without overflow before the window is due. *)
Lemma quiet_calls (n : nat) (self : t) :
  configured self ->
  0 < cur_iter self - last_overflow_iter self ->
  cur_iter self - last_overflow_iter self + Z.of_nat n <= scale_window self ->
  outcomes (repeat false n) self = repeat (Ok tt) n /\
  loss_scale (run (repeat false n) self) = loss_scale self.
Proof.
  intros C Hpos. induction n as [|n IH]; intros Hn.
  - split; reflexivity.
  - destruct IH as [Ho Hs]; [lia|].
    pose proof (one_more_normal_call n self C Ho) as Hstep.
    destruct (Z.eqb_spec ((cur_iter self - last_overflow_iter self
                           + Z.of_nat n) mod scale_window self) 0) as [H0|H0].
    + exfalso. rewrite Z.mod_small in H0 by lia. lia.
    + destruct Hstep as [Ho' Hs']. split; [exact Ho' | congruence].
Qed.

(** X12.  The window restarts at an overflow.  After an overflow call that
    returned normally, the calls without overflow that follow, fewer than
    [scale_window] of them, all return normally and leave the scale as the
    overflow call left it; the window is due again at the call number
    [scale_window] after the overflow and at none before. *)
Theorem window_restarts_at_overflow (self : t) (n : nat) :
  reachable self ->
  snd (update_loss_scale true self) = Ok tt ->
  Z.of_nat n < scale_window self ->
  outcomes (repeat false n) (run [true] self) = repeat (Ok tt) n /\
  loss_scale (run (true :: repeat false n) self) =
    loss_scale (run [true] self) /\
  due (run (true :: repeat false n) self) =
    (Z.of_nat n + 1 =? scale_window self).
Proof.
  intros R Hok Hn. pose proof (reachable_configured _ R) as C.
  pose proof (update_configured true _ C) as C'.
  destruct (update_same_configuration true self) as (Ew & _).
  assert (Ha : cur_iter (fst (update_loss_scale true self)) -
               last_overflow_iter (fst (update_loss_scale true self)) = 1).
  { rewrite (update_loss_scale_true _ C) in *.
    destruct (Py.mul _ _); [|discriminate].
    destruct (_ >? _); [discriminate|]. cbn. lia. }
  cbn [run].
  destruct (quiet_calls n _ C') as [Ho Hs]; [lia | lia|].
  split; [exact Ho|]. split; [exact Hs|].
  rewrite (due_after_normal_calls n _ C' Ho), Ha, Ew.
  destruct (Z.eqb_spec (Z.of_nat n + 1) (scale_window self)) as [E|E].
  - replace (1 + Z.of_nat n) with (scale_window self) by lia.
    rewrite Z.mod_same by lia. reflexivity.
  - rewrite Z.mod_small by lia.
    destruct (Z.eqb_spec (1 + Z.of_nat n) 0); [lia | reflexivity].
Qed.

Lemma scenario_a_due : reachable (run [false; false] scenario_a).
Proof. apply run_reachable. exact scenario_a_reachable. Qed.

Lemma window_restarts_at_overflow_witness :
  (reachable (run [false; false] scenario_a) /\
   snd (update_loss_scale true (run [false; false] scenario_a)) = Ok tt /\
   Z.of_nat 2 < scale_window (run [false; false] scenario_a)) /\
  outcomes (repeat false 2) (run [true] (run [false; false] scenario_a)) =
    repeat (Ok tt) 2 /\
  loss_scale (run (true :: repeat false 2) (run [false; false] scenario_a)) =
    loss_scale (run [true] (run [false; false] scenario_a)) /\
  due (run (true :: repeat false 2) (run [false; false] scenario_a)) =
    (Z.of_nat 2 + 1 =? scale_window (run [false; false] scenario_a)).
Proof.
  split; [split; [exact scenario_a_due | split; reflexivity]|].
  apply (window_restarts_at_overflow (run [false; false] scenario_a) 2).
  - exact scenario_a_due.
  - reflexivity.
  - reflexivity.
Defined.

End Streaks.

(** ** An integer scale beyond the largest float *)

Section HugeScale.

Import DynamicLossScaleManager.

Lemma truncated_large (m e : Z) :
  0 < m -> 0 <= e ->
  0 < fst (Binary64.truncated m e) /\ e <= snd (Binary64.truncated m e).
Proof.
  intros Hm He. destruct (Zdigits2_bounds m Hm) as (Hd & Hlo & _).
  unfold Binary64.truncated. rewrite dropped_bits_eq.
  set (d := Zdigits2 m) in *.
  destruct (Z.ltb_spec 0 (Z.max (d + e - 53) (-1074) - e)) as [Hk|Hk];
    cbn [fst snd]; [|lia].
  replace (Z.max (d + e - 53) (-1074) - e) with (d - 53) in * by lia.
  split; [|lia].
  apply Z.lt_le_trans with (2 ^ 52); [reflexivity|].
  apply Z.div_le_lower_bound; [apply Z.pow_pos_nonneg; lia|].
  rewrite <- Z.pow_add_r by lia.
  replace (d - 53 + 52) with (d - 1) by lia. exact Hlo.
Qed.

(** An integer of 2^1024 or more has no float. *)
Lemma of_Z_overflows (z : Z) :
  2 ^ 1024 <= z -> Binary64.is_infinity (Binary64.of_Z z) = true.
Proof.
  intros Hz.
  assert (Hpos : 0 < z) by (pose proof (Z.pow_pos_nonneg 2 1024); lia).
  destruct z as [|p|p]; try lia.
  destruct (digits2_pos_bounds p) as [_ Hhi].
  assert (Hd : 1024 < Zpos (digits2_pos p)).
  { apply (Z.pow_lt_mono_r_iff 2); lia. }
  unfold Binary64.of_Z, binary_normalize, binary_round, shl_align.
  assert (Ef : fexp Binary64.prec Binary64.emax (Zpos (digits2_pos p) + 0) - 0
               = Zpos (digits2_pos p) - 53)
    by (unfold fexp, emin, Binary64.prec, Binary64.emax; lia).
  rewrite Ef.
  destruct (Zpos (digits2_pos p) - 53) as [|q|q] eqn:Eq; try lia.
  rewrite binary_round_aux_cases by lia.
  destruct (rounded_bounds (Zpos p) 0 loc_Exact ltac:(lia)) as (m2 & Hm2 & ->).
  assert (H1 : 0 < fst (Binary64.truncated (Zpos p) 0) /\
               972 <= snd (Binary64.truncated (Zpos p) 0)).
  { destruct (truncated_large (Zpos p) 0 ltac:(lia) ltac:(lia)) as [Hf _].
    split; [exact Hf|].
    unfold Binary64.truncated. rewrite dropped_bits_eq.
    cbn [Zdigits2].
    destruct (Z.ltb_spec 0 (Z.max (Zpos (digits2_pos p) + 0 - 53) (-1074) - 0));
      cbn [snd]; lia. }
  destruct (truncated_large m2 (snd (Binary64.truncated (Zpos p) 0))
              ltac:(lia) ltac:(lia)) as [Hf He].
  destruct (fst (Binary64.truncated m2 _)) as [|r|r]; try lia.
  destruct (Z.leb_spec (snd (Binary64.truncated m2
                               (snd (Binary64.truncated (Zpos p) 0))))
                       (Binary64.emax - Binary64.prec)) as [H|H];
    [|reflexivity].
  unfold Binary64.emax, Binary64.prec in H. lia.
Qed.

(** X15.  In a reachable state whose scale is an integer of 2^1024 or
    more, overflow calls can no longer lower the scale: each raises
    [OverflowError] and leaves the object as it was, [bad_step] included, so
    the [RuntimeError] never comes. *)
Theorem huge_integer_scale_is_stuck (self : t) (z : Z) (k : nat) :
  reachable self ->
  loss_scale self = Py.Int z ->
  2 ^ 1024 <= z ->
  outcomes (repeat true k) self = repeat (Raise OverflowError) k /\
  run (repeat true k) self = self.
Proof.
  intros R Hs Hz. pose proof (reachable_configured _ R) as C.
  assert (E : update_loss_scale true self = (self, Raise OverflowError)).
  { rewrite (update_loss_scale_true _ C), Hs.
    destruct (configured_decrease_float _ C) as [d ->].
    unfold Py.mul, Py.as_float, Py.float_of_int.
    now rewrite (of_Z_overflows z Hz). }
  induction k as [|k [Ho Hr]]; cbn [repeat run outcomes].
  - split; reflexivity.
  - rewrite E. cbn [fst snd]. rewrite Ho, Hr. split; reflexivity.
Qed.

Lemma grown_reachable : reachable grown.
Proof.
  apply run_reachable. apply (reachable_init (Py.Int (2 ^ 24)) (Py.Int 2) 1).
  reflexivity.
Qed.

Lemma huge_integer_scale_is_stuck_witness :
  (reachable grown /\ loss_scale grown = Py.Int (2 ^ 1024) /\
   2 ^ 1024 <= 2 ^ 1024) /\
  outcomes (repeat true 4) grown = repeat (Raise OverflowError) 4 /\
  run (repeat true 4) grown = grown.
Proof.
  split.
  - split; [exact grown_reachable|]. split; [vm_compute; reflexivity | lia].
  - apply (huge_integer_scale_is_stuck grown (2 ^ 1024) 4).
    + exact grown_reachable.
    + vm_compute; reflexivity.
    + lia.
Defined.

End HugeScale.
